(** * python-video-converter: option validation and ffmpeg argument synthesis

    A shallow embedding of [converter/avcodecs.py] and of
    [Converter.parse_options] from [converter/__init__.py] (Python 2), with
    the properties of the design document stated over it.

    Conventions of the embedding:
    - a Python value that can sit in an option dictionary is a [pyval]
      (None, bool, int/long, str); an option dictionary is a
      [gmap string pyval];
    - a raised exception is the [Err] case of [result], threaded with a
      small error monad;
    - Python floats are IEEE binary64, taken from [SpecFloat] at precision
      53 and maximal exponent 1024;
    - an argument fragment is a [list pyval]: the code can (and does) put
      values that are not strings into it. *)

From Stdlib Require Import ZArith String Ascii List Bool Lia.
From Stdlib Require Import SpecFloat.
From stdpp Require Import base option list strings gmap fin_maps pretty.

Local Open Scope string_scope.
Local Open Scope Z_scope.
Local Open Scope list_scope.

(** ** Python values, exceptions and the error monad *)

Inductive pyval : Type :=
| VNone
| VBool (b : bool)
| VInt (n : Z)
| VStr (s : string).

Inductive exn : Type :=
| ValueError (msg : string)
| TypeError
| KeyError
| IndexError
| UnboundLocalError
| OverflowError
| ZeroDivisionError
| AssertionError
| ConverterError (msg : string).

Inductive result (A : Type) : Type :=
| Ok (a : A)
| Err (e : exn).
Arguments Ok {A} a.
Arguments Err {A} e.

Definition rbind {A B} (r : result A) (k : A → result B) : result B :=
  match r with
  | Ok a => k a
  | Err e => Err e
  end.

Notation "'let*' x ':=' r 'in' k" := (rbind r (λ x, k))
  (at level 10, x pattern, r at level 100, k at level 200).

Definition is_ok {A} (r : result A) : bool :=
  match r with Ok _ => true | Err _ => false end.

(** The scalar kinds that an [encoder_options] table declares: the Python
    type objects [str], [int] and [bool]. *)
Inductive kind : Type := KStr | KInt | KBool.

Definition has_kind (typ : kind) (v : pyval) : bool :=
  match typ, v with
  | KStr, VStr _ => true
  | KInt, VInt _ => true
  | KBool, VBool _ => true
  | _, _ => false
  end.

(** ** The builtins [str], [int], [bool] on [pyval] *)

(** [str(v)]. For an int this is its decimal rendering ([pretty] on [Z]). *)
Definition py_str (v : pyval) : string :=
  match v with
  | VNone => "None"
  | VBool true => "True"
  | VBool false => "False"
  | VInt n => pretty n
  | VStr s => s
  end.

(** [bool(v)]: truth value testing. *)
Definition py_truthy (v : pyval) : bool :=
  match v with
  | VNone => false
  | VBool b => b
  | VInt n => negb (n =? 0)
  | VStr s => negb (String.eqb s "")
  end.

Definition is_space (c : ascii) : bool :=
  let n := nat_of_ascii c in
  ((n =? 32) || ((9 <=? n) && (n <=? 13)))%nat.

Definition digit_of (c : ascii) : option Z :=
  let n := nat_of_ascii c in
  if ((48 <=? n) && (n <=? 57))%nat then Some (Z.of_nat n - 48) else None.

Fixpoint lstrip (s : string) : string :=
  match s with
  | String c s' => if is_space c then lstrip s' else s
  | EmptyString => EmptyString
  end.

(** Digits followed by optional trailing white space; [acc] is the value
    read so far, [seen] says whether a digit was read. *)
Fixpoint parse_digits (s : string) (acc : Z) (seen : bool) : option Z :=
  match s with
  | EmptyString => if seen then Some acc else None
  | String c s' =>
    match digit_of c with
    | Some d => parse_digits s' (10 * acc + d) true
    | None => if seen && String.eqb (lstrip s) "" then Some acc else None
    end
  end.

(** [int(s)] for a string, base 10: surrounding white space, an optional
    sign, at least one digit. *)
Definition int_of_string (s : string) : option Z :=
  match lstrip s with
  | String "-" s' => Z.opp <$> parse_digits s' 0 false
  | String "+" s' => parse_digits s' 0 false
  | s' => parse_digits s' 0 false
  end.

(** [int(v)]. *)
Definition py_int (v : pyval) : result Z :=
  match v with
  | VNone => Err TypeError
  | VBool b => Ok (if b then 1 else 0)
  | VInt n => Ok n
  | VStr s =>
    match int_of_string s with
    | Some n => Ok n
    | None => Err (ValueError "invalid literal for int() with base 10")
    end
  end.

(** [typ(v)] for [typ] one of the three type objects. *)
Definition coerce (typ : kind) (v : pyval) : result pyval :=
  match typ with
  | KStr => Ok (VStr (py_str v))
  | KInt => let* n := py_int v in Ok (VInt n)
  | KBool => Ok (VBool (py_truthy v))
  end.

(** ** Reading a sanitized dictionary

    [safe_options] stores under a key only a value of the kind its table
    declares (lemma [safe_options_kind] below), so where the code compares
    or computes with [safe[k]] for an [int] key, the value is read as an
    integer. *)
Definition get_int (safe : gmap string pyval) (k : string) : option Z :=
  match safe !! k with
  | Some (VInt n) => Some n
  | _ => None
  end.

(** The idiom
    [if k in safe: x = safe[k]; if x < lo or x > hi: del safe[k]]. *)
Definition del_outside (k : string) (lo hi : Z) (safe : gmap string pyval)
    : gmap string pyval :=
  match get_int safe k with
  | Some x => if (x <? lo) || (x >? hi) then delete k safe else safe
  | None => safe
  end.

(** The idiom [if k in safe: optlist.extend([flag, str(safe[k])])], as the
    list that is appended. *)
Definition emit_str (flag k : string) (safe : gmap string pyval)
    : list pyval :=
  match safe !! k with
  | Some v => [VStr flag; VStr (py_str v)]
  | None => []
  end.

(** The same with [str(safe[k]) + 'k']. *)
Definition emit_str_k (flag k : string) (safe : gmap string pyval)
    : list pyval :=
  match safe !! k with
  | Some v => [VStr flag; VStr (py_str v +:+ "k")]
  | None => []
  end.

(** The idiom [if k in safe: optlist.extend([flag, safe[k]])]: the value
    goes into the list as it is. *)
Definition emit_raw (flag k : string) (safe : gmap string pyval)
    : list pyval :=
  match safe !! k with
  | Some v => [VStr flag; v]
  | None => []
  end.

(** ** [BaseCodec] *)

Module BaseCodec.

(** [safe_options]: the loop over [opts.items()] copies the expected keys
    whose typecast succeeds; the bare [except] swallows every failure of
    the cast. *)
Definition safe_options (encoder_options : gmap string kind)
    (opts : gmap string pyval) : gmap string pyval :=
  map_fold (λ k v safe,
    match encoder_options !! k with
    | Some typ =>
      match coerce typ v with
      | Ok v' => <[k := v']> safe
      | Err _ => safe
      end
    | None => safe
    end) ∅ opts.

(** [opt['codec'] != self.codec_name], for a class whose [codec_name] is
    a string. *)
Definition codec_is (v : pyval) (codec_name : string) : bool :=
  match v with
  | VStr s => String.eqb s codec_name
  | _ => false
  end.

Definition parse_options (codec_name : string) (opt : gmap string pyval)
    : result unit :=
  match opt !! "codec" with
  | Some v =>
    if codec_is v codec_name then Ok tt
    else Err (ValueError "invalid codec name")
  | None => Err (ValueError "invalid codec name")
  end.

End BaseCodec.

(** ** Audio codecs *)

(** The subclasses of [AudioCodec]. *)
Inductive audio_codec : Type :=
| VorbisCodec | AacCodec | FdkAacCodec | Ac3Codec
| FlacCodec | DtsCodec | Mp3Codec | Mp2Codec.

Module AudioCodec.

Definition codec_name (self : audio_codec) : string :=
  match self with
  | VorbisCodec => "vorbis" | AacCodec => "aac"
  | FdkAacCodec => "libfdk_aac" | Ac3Codec => "ac3"
  | FlacCodec => "flac" | DtsCodec => "dts"
  | Mp3Codec => "mp3" | Mp2Codec => "mp2"
  end.

Definition ffmpeg_codec_name (self : audio_codec) : string :=
  match self with
  | VorbisCodec => "libvorbis" | AacCodec => "aac"
  | FdkAacCodec => "libfdk_aac" | Ac3Codec => "ac3"
  | FlacCodec => "flac" | DtsCodec => "dts"
  | Mp3Codec => "libmp3lame" | Mp2Codec => "mp2"
  end.

Definition base_encoder_options : gmap string kind :=
  {[ "codec" := KStr; "channels" := KInt; "bitrate" := KInt;
     "samplerate" := KInt ]}.

(** [VorbisCodec] updates a copy of the table with [quality]. *)
Definition encoder_options (self : audio_codec) : gmap string kind :=
  match self with
  | VorbisCodec => <["quality" := KInt]> base_encoder_options
  | _ => base_encoder_options
  end.

(** No audio class overrides it. *)
Definition _codec_specific_parse_options (self : audio_codec)
    (safe : gmap string pyval) : gmap string pyval := safe.

Definition _codec_specific_produce_ffmpeg_list (self : audio_codec)
    (safe : gmap string pyval) : list pyval :=
  match self with
  | VorbisCodec => emit_raw "-qscale:a" "quality" safe
  | AacCodec => [VStr "-strict"; VStr "experimental"]
  | _ => []
  end.

Definition parse_options (self : audio_codec) (opt : gmap string pyval)
    : result (list pyval) :=
  let* _ := BaseCodec.parse_options (codec_name self) opt in
  let safe := BaseCodec.safe_options (encoder_options self) opt in
  let safe := del_outside "channels" 1 12 safe in
  let safe := del_outside "bitrate" 8 512 safe in
  let safe := del_outside "samplerate" 1000 50000 safe in
  let safe := _codec_specific_parse_options self safe in
  let optlist := [VStr "-acodec"; VStr (ffmpeg_codec_name self)] in
  let optlist := optlist ++ emit_str "-ac" "channels" safe in
  let optlist := optlist ++ emit_str_k "-ab" "bitrate" safe in
  let optlist := optlist ++ emit_str "-ar" "samplerate" safe in
  Ok (optlist ++ _codec_specific_produce_ffmpeg_list self safe).

End AudioCodec.

(** ** Subtitle codecs *)

(** The subclasses of [SubtitleCodec]. *)
Inductive subtitle_codec : Type :=
| MOVTextCodec | SSA | SubRip | DVBSub | DVDSub.

(** [len(v)]. *)
Definition py_len (v : pyval) : result Z :=
  match v with
  | VStr s => Ok (Z.of_nat (String.length s))
  | _ => Err TypeError
  end.

Module SubtitleCodec.

Definition codec_name (self : subtitle_codec) : string :=
  match self with
  | MOVTextCodec => "mov_text" | SSA => "ass" | SubRip => "subrip"
  | DVBSub => "dvbsub" | DVDSub => "dvdsub"
  end.

(** Every subtitle class gives the engine the name it is known by. *)
Definition ffmpeg_codec_name (self : subtitle_codec) : string :=
  match self with
  | MOVTextCodec => "mov_text" | SSA => "ass" | SubRip => "subrip"
  | DVBSub => "dvbsub" | DVDSub => "dvdsub"
  end.

Definition encoder_options : gmap string kind :=
  {[ "codec" := KStr; "language" := KStr; "forced" := KInt;
     "default" := KInt ]}.

Definition _codec_specific_parse_options (self : subtitle_codec)
    (safe : gmap string pyval) : gmap string pyval := safe.

Definition _codec_specific_produce_ffmpeg_list (self : subtitle_codec)
    (safe : gmap string pyval) : list pyval := [].

Definition parse_options (self : subtitle_codec) (opt : gmap string pyval)
    : result (list pyval) :=
  let* _ := BaseCodec.parse_options (codec_name self) opt in
  let safe := BaseCodec.safe_options encoder_options opt in
  let safe := del_outside "forced" 0 1 safe in
  let safe := del_outside "default" 0 1 safe in
  let* safe :=
    match safe !! "language" with
    | Some l =>
      let* n := py_len l in
      Ok (if n >? 3 then delete "language" safe else safe)
    | None => Ok safe
    end in
  let safe := _codec_specific_parse_options self safe in
  let optlist := [VStr "-scodec"; VStr (ffmpeg_codec_name self)] in
  Ok (optlist ++ _codec_specific_produce_ffmpeg_list self safe).

End SubtitleCodec.

(** ** Python floats

    A Python float is an IEEE binary64 number; the operations are those of
    [SpecFloat] at precision 53 and maximal exponent 1024, rounding to
    nearest even. *)

(** [float(n)] for an int or long: correctly rounded, and [OverflowError]
    when [n] is too large for a double. *)
Definition py_float (n : Z) : result spec_float :=
  match binary_normalize 53 1024 n 0 false with
  | S754_infinity _ => Err OverflowError
  | f => Ok f
  end.

(** [int(f)]: truncation toward zero. *)
Definition py_trunc (f : spec_float) : result Z :=
  match f with
  | S754_zero _ => Ok 0
  | S754_infinity _ => Err OverflowError
  | S754_nan => Err (ValueError "cannot convert float NaN to integer")
  | S754_finite s m e =>
    let a := match e with
             | Zneg p => Z.pos m / 2 ^ Z.pos p
             | _ => Z.pos m * 2 ^ e
             end in
    Ok (if s then - a else a)
  end.

(** [x / y] on floats. *)
Definition py_fdiv (x y : spec_float) : result spec_float :=
  match y with
  | S754_zero _ => Err ZeroDivisionError
  | _ => Ok (SFdiv 53 1024 x y)
  end.

(** [n * f] for an int [n] and a float [f]. *)
Definition py_imulf (n : Z) (f : spec_float) : result spec_float :=
  let* x := py_float n in Ok (SFmul 53 1024 x f).

(** ** Video codecs *)

(** The registered subclasses of [VideoCodec]; [Mpeg1Codec] and
    [Mpeg2Codec] derive from [MpegCodec]. *)
Inductive video_codec : Type :=
| TheoraCodec | H264Codec | DivxCodec | Vp8Codec
| H263Codec | FlvCodec | Mpeg1Codec | Mpeg2Codec.

(** What a call site hands to a function as positional arguments: the
    instance a bound method is called on, or a width or height ([None] or
    an int). *)
Inductive arg : Type :=
| ASelf
| ADim (d : option Z).

(** [optlist.index('-vf')]. *)
Fixpoint index_of (tok : string) (l : list pyval) : option nat :=
  match l with
  | [] => None
  | VStr s :: l' =>
    if String.eqb s tok then Some O else S <$> index_of tok l'
  | _ :: l' => S <$> index_of tok l'
  end.

(** ['%d' % v]. *)
Definition fmt_d (v : pyval) : result string :=
  match v with
  | VInt n => Ok (pretty n)
  | VBool b => Ok (if b then "1" else "0")
  | _ => Err TypeError
  end.

Definition truthy_dim (x : option Z) : bool :=
  match x with
  | Some n => negb (n =? 0)
  | None => false
  end.

Definition dim_val (x : option Z) : pyval :=
  match x with
  | Some n => VInt n
  | None => VNone
  end.

Definition policies : list string :=
  ["Fit"; "Fill"; "Stretch"; "Keep"; "ShrinkToFit"; "ShrinkToFill"].

Definition is_policy (s : string) : bool :=
  existsb (String.eqb s) policies.

Module VideoCodec.

Definition codec_name (self : video_codec) : string :=
  match self with
  | TheoraCodec => "theora" | H264Codec => "h264" | DivxCodec => "divx"
  | Vp8Codec => "vp8" | H263Codec => "h263" | FlvCodec => "flv"
  | Mpeg1Codec => "mpeg1" | Mpeg2Codec => "mpeg2"
  end.

Definition ffmpeg_codec_name (self : video_codec) : string :=
  match self with
  | TheoraCodec => "libtheora" | H264Codec => "libx264"
  | DivxCodec => "mpeg4" | Vp8Codec => "libvpx" | H263Codec => "h263"
  | FlvCodec => "flv" | Mpeg1Codec => "mpeg1video"
  | Mpeg2Codec => "mpeg2video"
  end.

Definition base_encoder_options : gmap string kind :=
  {[ "codec" := KStr; "bitrate" := KInt; "fps" := KInt;
     "max_width" := KInt; "max_height" := KInt; "sizing_policy" := KStr;
     "src_width" := KInt; "src_height" := KInt; "src_rotate" := KInt;
     "filters" := KStr; "autorotate" := KBool ]}.

Definition encoder_options (self : video_codec) : gmap string kind :=
  match self with
  | TheoraCodec => <["quality" := KInt]> base_encoder_options
  | H264Codec =>
    <["preset" := KStr]> (<["quality" := KInt]> (<["profile" := KStr]>
    (<["tune" := KStr]> (<["level" := KStr]>
    (<["max_reference_frames" := KInt]> (<["max_rate" := KStr]>
    (<["max_frames_between_keyframes" := KInt]>
       base_encoder_options)))))))
  | _ => base_encoder_options
  end.

(** The table of transpose filters is indexed by the value of
    [safe['src_rotate']]; a key it does not hold is a [KeyError]. *)
Definition _autorotate (src_rotate : pyval) : result string :=
  match src_rotate with
  | VInt n =>
    if n =? 90 then Ok "transpose=1"
    else if n =? 180 then Ok "transpose=2,transpose=2"
    else if n =? 270 then Ok "transpose=2"
    else Err KeyError
  | _ => Err KeyError
  end.

Definition _extend_vf (optlist : list pyval) (value : pyval)
    : result (list pyval) :=
  match index_of "-vf" optlist with
  | Some i =>
    match optlist !! S i with
    | Some current_vf =>
      Ok (<[S i := VStr (py_str current_vf +:+ "," +:+ py_str value)]>
            optlist)
    | None => Err IndexError
    end
  | None => Ok (optlist ++ [VStr "-vf"; value])
  end.

(** [def _div_by_2(d): return d+1 if d % 2 else d]. The function is
    declared in the class body with the single parameter [d], so it takes
    exactly one positional argument; with any other number of arguments
    the call is a [TypeError], and so is [d % 2] when [d] is not a
    number. *)
Definition _div_by_2 (args : list arg) : result (option Z) :=
  match args with
  | [ADim (Some d)] => Ok (Some (if d mod 2 =? 0 then d else d + 1))
  | [ADim None] => Err TypeError
  | [ASelf] => Err TypeError
  | _ => Err TypeError
  end.

(** The block shared by [Fit] and the shrinking case of [ShrinkToFit]. *)
Definition scale_fit (sw sh max_width max_height : Z)
    : result (option Z * option Z * option string) :=
  let* r := py_float (sh / sw) in
  let* mh := py_float max_height in
  if SFeqb r mh then Ok (Some max_width, Some max_height, None)
  else if SFltb r mh then
    let* fsh := py_float sh in
    let* factor := py_fdiv mh fsh in
    let* x := py_imulf sw factor in
    let* w := py_trunc x in
    Ok (Some w, Some max_height, None)
  else
    let* mw := py_float max_width in
    let* fsw := py_float sw in
    let* factor := py_fdiv mw fsw in
    let* x := py_imulf sh factor in
    let* h := py_trunc x in
    Ok (Some max_width, Some h, None).

Definition crop (max_width max_height d : Z) : string :=
  "crop=" +:+ pretty max_width +:+ ":" +:+ pretty max_height +:+ ":"
    +:+ pretty d +:+ ":0".

(** The block shared by [Fill] and the filling case of [ShrinkToFill]. *)
Definition scale_fill (sw sh max_width max_height : Z)
    : result (option Z * option Z * option string) :=
  let* r := py_float (sh / sw) in
  let* mh := py_float max_height in
  if SFeqb r mh then Ok (Some max_width, Some max_height, None)
  else if SFltb r mh then
    let* mw := py_float max_width in
    let* fsw := py_float sw in
    let* factor := py_fdiv mw fsw in
    let* x := py_imulf sh factor in
    let* h0 := py_trunc x in
    let dh := (h0 - max_height) / 2 in
    Ok (Some max_width, Some h0, Some (crop max_width max_height dh))
  else
    let* fsh := py_float sh in
    let* factor := py_fdiv mh fsh in
    let* x := py_imulf sw factor in
    let* w0 := py_trunc x in
    let dw := (w0 - max_width) / 2 in
    Ok (Some w0, Some max_height, Some (crop max_width max_height dw)).

(** [_aspect_corrections]. The [print] of the rejected policy is not
    modelled. In the last branch of [ShrinkToFill] the local [factor] is
    read before any assignment to it. *)
Definition _aspect_corrections (sw sh max_width max_height : option Z)
    (sizing_policy : string)
    : result (option Z * option Z * option string) :=
  match sw, sh, max_width, max_height with
  | Some sw', Some sh', Some mw, Some mh =>
    if (mw =? 0) || (mh =? 0) || (sw' =? 0) || (sh' =? 0)
    then Ok (sw, sh, None)
    else if negb (is_policy sizing_policy) then Ok (sw, sh, None)
    else if String.eqb sizing_policy "Fit" then scale_fit sw' sh' mw mh
    else if String.eqb sizing_policy "Fill" then scale_fill sw' sh' mw mh
    else if String.eqb sizing_policy "Stretch"
    then Ok (Some mw, Some mh, None)
    else if String.eqb sizing_policy "Keep" then Ok (sw, sh, None)
    else if String.eqb sizing_policy "ShrinkToFit" then
      if (sh' >? mh) || (sw' >? mw) then scale_fit sw' sh' mw mh
      else Ok (sw, sh, None)
    else if String.eqb sizing_policy "ShrinkToFill" then
      if (sh' <? mh) || (sw' <? mw) then scale_fill sw' sh' mw mh
      else Err UnboundLocalError
    else Err AssertionError
  | _, _, _, _ => Ok (sw, sh, None)
  end.

(** [MpegCodec] overrides it to put an [aspect=] filter in front of the
    aspect filters; the other classes inherit the identity. *)
Definition _codec_specific_parse_options (self : video_codec)
    (safe : gmap string pyval) : result (gmap string pyval) :=
  match self with
  | Mpeg1Codec | Mpeg2Codec =>
    match safe !! "max_width", safe !! "max_height" with
    | Some w, Some h =>
      if py_truthy w && py_truthy h then
        match safe !! "aspect_filters" with
        | Some filters =>
          let* sw := fmt_d w in
          let* sh := fmt_d h in
          let tmp := "aspect=" +:+ sw +:+ ":" +:+ sh in
          match filters with
          | VNone => Ok (<["aspect_filters" := VStr tmp]> safe)
          | VStr f =>
            Ok (<["aspect_filters" := VStr (tmp +:+ "," +:+ f)]> safe)
          | _ => Err TypeError
          end
        | None => Err KeyError
        end
      else Ok safe
    | _, _ => Err KeyError
    end
  | _ => Ok safe
  end.

Definition _codec_specific_produce_ffmpeg_list (self : video_codec)
    (safe : gmap string pyval) : list pyval :=
  match self with
  | TheoraCodec => emit_raw "-qscale:v" "quality" safe
  | H264Codec =>
    emit_raw "-preset" "preset" safe
    ++ emit_raw "-crf" "quality" safe
    ++ emit_raw "-profile" "profile" safe
    ++ emit_raw "-tune" "tune" safe
    ++ emit_raw "-level" "level" safe
    ++ emit_str "-refs" "max_reference_frames" safe
    ++ emit_str "-maxrate" "max_rate" safe
    ++ emit_str "-g" "max_frames_between_keyframes" safe
  | _ => []
  end.

(** The requested bound [w] (or [h]): dropped outside the range, made
    even inside it. *)
Definition bound_dim (safe : gmap string pyval) (k : string) (lo hi : Z)
    : option Z :=
  match get_int safe k with
  | Some w =>
    if (w <? lo) || (w >? hi) then None
    else if w mod 2 =? 0 then Some w else Some (w + 1)
  | None => None
  end.

Definition wants_autorotate (safe : gmap string pyval) : bool :=
  match safe !! "autorotate", safe !! "src_rotate" with
  | Some a, Some _ => py_truthy a
  | _, _ => false
  end.

(** [parse_options]. The two calls [self._div_by_2(w)] and
    [self._div_by_2(h)] go through the bound method, which passes the
    instance first. *)
Definition parse_options (self : video_codec) (opt : gmap string pyval)
    : result (list pyval) :=
  let* _ := BaseCodec.parse_options (codec_name self) opt in
  let safe := BaseCodec.safe_options (encoder_options self) opt in
  let safe := del_outside "fps" 1 120 safe in
  let safe := del_outside "bitrate" 16 15000 safe in
  let w := bound_dim safe "max_width" 16 4000 in
  let h := bound_dim safe "max_height" 16 3000 in
  let sw := get_int safe "src_width" in
  let sh := get_int safe "src_height" in
  let sizing_policy :=
    match safe !! "sizing_policy" with
    | Some (VStr p) => if is_policy p then p else "Keep"
    | _ => "Keep"
    end in
  let* (w, h, filters) := _aspect_corrections sw sh w h sizing_policy in
  let* w := _div_by_2 [ASelf; ADim w] in
  let* h := _div_by_2 [ASelf; ADim h] in
  let safe := <["max_width" := dim_val w]> safe in
  let safe := <["max_height" := dim_val h]> safe in
  let safe :=
    <["aspect_filters" := from_option VStr VNone filters]> safe in
  let swap :=
    wants_autorotate safe &&
    match safe !! "src_rotate" with
    | Some (VInt r) => (r =? 90) || (r =? 270)
    | _ => false
    end in
  let safe :=
    if swap
    then <["max_height" := dim_val w]> (<["max_width" := dim_val h]> safe)
    else safe in
  let '(w, h) := if swap then (h, w) else (w, h) in
  let sized := truthy_dim w && truthy_dim h in
  let wxh sep := VStr (py_str (dim_val w) +:+ sep +:+ py_str (dim_val h)) in
  let safe := if sized then <["aspect" := wxh ":"]> safe else safe in
  let* safe := _codec_specific_parse_options self safe in
  let* filters :=
    match safe !! "aspect_filters" with
    | Some f => Ok f
    | None => Err KeyError
    end in
  let optlist := [VStr "-vcodec"; VStr (ffmpeg_codec_name self)] in
  let optlist := optlist ++ emit_str "-r" "fps" safe in
  let optlist := optlist ++ emit_str_k "-vb" "bitrate" safe in
  let optlist :=
    if sized then
      optlist ++ [VStr "-s"; wxh "x"]
      ++ match safe !! "aspect" with
         | Some _ => [VStr "-aspect"; wxh ":"]
         | None => []
         end
    else optlist in
  let optlist :=
    if py_truthy filters then optlist ++ [VStr "-vf"; filters]
    else optlist in
  let* optlist :=
    if wants_autorotate safe then
      match safe !! "src_rotate" with
      | Some r =>
        let* rotate_filter := _autorotate r in
        _extend_vf optlist (VStr rotate_filter)
      | None => Err KeyError
      end
    else Ok optlist in
  let* optlist :=
    match safe !! "filters" with
    | Some f => _extend_vf optlist f
    | None => Ok optlist
    end in
  Ok (optlist ++ _codec_specific_produce_ffmpeg_list self safe).

End VideoCodec.

(** ** The null and copy classes, and the registries *)

Inductive audio_class : Type :=
| AudioNullCodec | AudioCopyCodec | AudioClass (c : audio_codec).

Inductive video_class : Type :=
| VideoNullCodec | VideoCopyCodec | VideoClass (c : video_codec).

Inductive subtitle_class : Type :=
| SubtitleNullCodec | SubtitleCopyCodec | SubtitleClass (c : subtitle_codec).

(** The class attribute [codec_name]: [None] for the null classes. *)
Definition audio_class_name (cls : audio_class) : option string :=
  match cls with
  | AudioNullCodec => None
  | AudioCopyCodec => Some "copy"
  | AudioClass c => Some (AudioCodec.codec_name c)
  end.

Definition video_class_name (cls : video_class) : option string :=
  match cls with
  | VideoNullCodec => None
  | VideoCopyCodec => Some "copy"
  | VideoClass c => Some (VideoCodec.codec_name c)
  end.

Definition subtitle_class_name (cls : subtitle_class) : option string :=
  match cls with
  | SubtitleNullCodec => None
  | SubtitleCopyCodec => Some "copy"
  | SubtitleClass c => Some (SubtitleCodec.codec_name c)
  end.

(** [cls().parse_options(opt)], by the class that defines the method. *)
Definition audio_parse_options (cls : audio_class)
    (opt : gmap string pyval) : result (list pyval) :=
  match cls with
  | AudioNullCodec => Ok [VStr "-an"]
  | AudioCopyCodec => Ok [VStr "-acodec"; VStr "copy"]
  | AudioClass c => AudioCodec.parse_options c opt
  end.

Definition video_parse_options (cls : video_class)
    (opt : gmap string pyval) : result (list pyval) :=
  match cls with
  | VideoNullCodec => Ok [VStr "-vn"]
  | VideoCopyCodec => Ok [VStr "-vcodec"; VStr "copy"]
  | VideoClass c => VideoCodec.parse_options c opt
  end.

Definition subtitle_parse_options (cls : subtitle_class)
    (opt : gmap string pyval) : result (list pyval) :=
  match cls with
  | SubtitleNullCodec => Ok [VStr "-sn"]
  | SubtitleCopyCodec => Ok [VStr "-scodec"; VStr "copy"]
  | SubtitleClass c => SubtitleCodec.parse_options c opt
  end.

Definition audio_codec_list : list audio_class :=
  [AudioNullCodec; AudioCopyCodec; AudioClass VorbisCodec;
   AudioClass AacCodec; AudioClass Mp3Codec; AudioClass Mp2Codec;
   AudioClass FdkAacCodec; AudioClass Ac3Codec; AudioClass DtsCodec;
   AudioClass FlacCodec].

Definition video_codec_list : list video_class :=
  [VideoNullCodec; VideoCopyCodec; VideoClass TheoraCodec;
   VideoClass H264Codec; VideoClass DivxCodec; VideoClass Vp8Codec;
   VideoClass H263Codec; VideoClass FlvCodec; VideoClass Mpeg1Codec;
   VideoClass Mpeg2Codec].

Definition subtitle_codec_list : list subtitle_class :=
  [SubtitleNullCodec; SubtitleCopyCodec; SubtitleClass MOVTextCodec;
   SubtitleClass SSA; SubtitleClass SubRip; SubtitleClass DVDSub;
   SubtitleClass DVBSub].

(** The loops of [Converter.__init__]: [registry[cls.name] = cls]. *)
Definition registry {C : Type} (name : C → option string) (l : list C)
    : gmap (option string) C :=
  foldl (λ m cls, <[name cls := cls]> m) ∅ l.

(** ** The conversion request *)

(** A value of the request dictionary: a scalar, or a dictionary of
    scalars (a stream section). *)
Inductive topval : Type :=
| Scalar (v : pyval)
| Dict (d : gmap string pyval).

Inductive request : Type :=
| NotADict (v : pyval)
| Request (d : gmap string topval).

(** [c in registry] and [registry[c]] for a scalar [c]: the keys are [None]
    and strings, which no bool or int equals. *)
Definition registry_get {C : Type} (reg : gmap (option string) C)
    (c : pyval) : option C :=
  match c with
  | VNone => reg !! None
  | VStr s => reg !! Some s
  | _ => None
  end.

(** [v == n] for an int literal [n]. *)
Definition py_eq_int (v : pyval) (n : Z) : bool :=
  match v with
  | VInt m => m =? n
  | VBool b => (if b then 1 else 0) =? n
  | _ => false
  end.

(** [type(m) == int]: a plain int, neither a bool nor a long (a 64-bit
    build, [sys.maxint = 2**63 - 1]). *)
Definition is_plain_int (m : topval) : bool :=
  match m with
  | Scalar (VInt n) => (- 2 ^ 63 <=? n) && (n <? 2 ^ 63)
  | _ => false
  end.

Definition top_str (v : topval) : string :=
  match v with
  | Scalar v => py_str v
  | Dict _ => "{...}"
  end.

(** A container format class of [converter/formats.py]. *)
Record Format : Type := {
  format_name : string;
  ffmpeg_format_name : string
}.

Module BaseFormat.

(** Modelled from the spec: [BaseFormat.parse_options] of
    [converter/formats.py], which is not among the sources. The design
    document (4.2) gives it the precondition that [options['format']]
    equals the descriptor's [format_name], failing with the
    invalid-specification error otherwise, and the result
    [['-f', engine_format_name]]. *)
Definition parse_options (self : Format) (opt : gmap string topval)
    : result (list pyval) :=
  match opt !! "format" with
  | Some (Scalar (VStr f)) =>
    if String.eqb f (format_name self)
    then Ok [VStr "-f"; VStr (ffmpeg_format_name self)]
    else Err (ConverterError "format name mismatch")
  | _ => Err (ConverterError "format name mismatch")
  end.

End BaseFormat.

Module Converter.
Section Converter.

(** [format_list] of [converter/formats.py] and [parse_time] of
    [converter/ffmpeg.py] are not among the sources. *)
Variable format_list : list Format.
Variable parse_time : topval → result pyval.

Definition formats : gmap (option string) Format :=
  registry (λ cls, Some (format_name cls)) format_list.
Definition audio_codecs := registry audio_class_name audio_codec_list.
Definition video_codecs := registry video_class_name video_codec_list.
Definition subtitle_codecs :=
  registry subtitle_class_name subtitle_codec_list.

(** The section of one stream kind: [{'codec': None}] when it is left
    out, else [opt[key]], which has to be a dictionary with a codec. *)
Definition stream_section (opt : gmap string topval) (key : string)
    (left_out : bool) : result (gmap string pyval) :=
  if left_out then Ok {[ "codec" := VNone ]}
  else
    match opt !! key with
    | Some (Dict d) =>
      match d !! "codec" with
      | Some _ => Ok d
      | None =>
        Err (ConverterError ("Invalid " +:+ key +:+ " codec specification"))
      end
    | _ =>
      Err (ConverterError ("Invalid " +:+ key +:+ " codec specification"))
    end.

(** [c = section['codec']], the lookup of [c] in the registry of its
    stream kind, and [registry[c]().parse_options(section)]. *)
Definition stream_options {C : Type} (reg : gmap (option string) C)
    (parse : C → gmap string pyval → result (list pyval))
    (key : string) (section : gmap string pyval) : result (list pyval) :=
  match section !! "codec" with
  | Some c =>
    match registry_get reg c with
    | Some cls => parse cls section
    | None =>
      Err (ConverterError
             ("Requested unknown " +:+ key +:+ " codec " +:+ py_str c))
    end
  | None => Err KeyError
  end.

Definition parse_options (opt : request) (twopass : pyval)
    : result (list pyval) :=
  match opt with
  | NotADict _ => Err (ConverterError "Invalid output specification")
  | Request opt =>
    match opt !! "format" with
    | None => Err (ConverterError "Format not specified")
    | Some (Dict _) => Err TypeError
    | Some (Scalar f) =>
      match registry_get formats f with
      | None =>
        Err (ConverterError ("Requested unknown format: " +:+ py_str f))
      | Some cls =>
        let* format_options := BaseFormat.parse_options cls opt in
        if bool_decide (opt !! "audio" = None)
           && bool_decide (opt !! "video" = None)
        then Err (ConverterError
                    "Neither audio nor video streams requested")
        else
        let* opt_audio :=
          stream_section opt "audio"
            (bool_decide (opt !! "audio" = None) || py_eq_int twopass 1) in
        let* audio_options :=
          stream_options audio_codecs audio_parse_options
            "audio" opt_audio in
        let* opt_video :=
          stream_section opt "video"
            (bool_decide (opt !! "video" = None)) in
        let* video_options :=
          stream_options video_codecs video_parse_options
            "video" opt_video in
        let* opt_subtitle :=
          stream_section opt "subtitle"
            (bool_decide (opt !! "subtitle" = None)) in
        let* subtitle_options :=
          stream_options subtitle_codecs subtitle_parse_options
            "subtitle" opt_subtitle in
        let* format_options :=
          match opt !! "map" with
          | Some m =>
            if is_plain_int m
            then Ok (format_options ++ [VStr "-map"; VStr (top_str m)])
            else Err (ConverterError "map needs to be int")
          | None => Ok format_options
          end in
        let* format_options :=
          match opt !! "start" with
          | Some t =>
            let* start := parse_time t in
            Ok (format_options ++ [VStr "-ss"; start])
          | None => Ok format_options
          end in
        let* format_options :=
          match opt !! "duration" with
          | Some t =>
            let* duration := parse_time t in
            Ok (format_options ++ [VStr "-t"; duration])
          | None => Ok format_options
          end in
        let optlist :=
          audio_options ++ video_options ++ subtitle_options
          ++ format_options in
        if py_eq_int twopass 1
        then Ok (optlist ++ [VStr "-pass"; VStr "1"])
        else if py_eq_int twopass 2
        then Ok (optlist ++ [VStr "-pass"; VStr "2"])
        else Ok optlist
      end
    end
  end.

End Converter.
End Converter.

(** What [safe_options] leaves under a key, read off the raw dictionary and
    the table. *)
Definition sanitized (encoder_options : gmap string kind)
    (opts : gmap string pyval) (k : string) : option pyval :=
  match opts !! k, encoder_options !! k with
  | Some v, Some typ =>
    match coerce typ v with
    | Ok v' => Some v'
    | Err _ => None
    end
  | _, _ => None
  end.

(** ** [is_faststart]

    [pat in s] on strings, and [is_faststart] as a function of the content
    of the file it opens: the test reads the first 64 bytes. *)
Fixpoint str_in (pat s : string) : bool :=
  String.prefix pat s
  || match s with
     | EmptyString => false
     | String _ s' => str_in pat s'
     end.

Definition is_faststart (content : string) : bool :=
  str_in "moov" (String.substring 0 64 content).

(** ** A small instance of the missing parts

    A format list that holds the Ogg container only, and a [parse_time]
    that rejects every value; the examples below use requests without
    [start] and [duration]. *)
Definition ogg_only : list Format :=
  [ {| format_name := "ogg"; ffmpeg_format_name := "ogg" |} ].

Definition no_time (t : topval) : result pyval := Err TypeError.

(** * Properties *)

(** ** The error monad *)

Lemma rbind_ok {A B} (r : result A) (k : A → result B) b :
  rbind r k = Ok b → ∃ a, r = Ok a ∧ k a = Ok b.
Proof. destruct r as [a|e]; simpl; [eauto | discriminate]. Qed.

(** ** Sanitization *)

Lemma coerce_kind typ v v' : coerce typ v = Ok v' → has_kind typ v' = true.
Proof.
  destruct typ; simpl.
  - intros [= <-]. reflexivity.
  - destruct (py_int v); simpl; [intros [= <-]; reflexivity | discriminate].
  - intros [= <-]. reflexivity.
Qed.

Lemma safe_options_lookup encoder_options opts k :
  BaseCodec.safe_options encoder_options opts !! k
  = sanitized encoder_options opts k.
Proof.
  unfold BaseCodec.safe_options, sanitized. revert k.
  apply (map_fold_weak_ind (λ r m, ∀ k, r !! k =
    match m !! k, encoder_options !! k with
    | Some v, Some typ =>
      match coerce typ v with Ok v' => Some v' | Err _ => None end
    | _, _ => None
    end)).
  - intros k. rewrite !lookup_empty. reflexivity.
  - intros i x m r Hi IH k.
    destruct (decide (i = k)) as [->|Hne].
    + rewrite lookup_insert_eq.
      destruct (encoder_options !! k) as [typ|] eqn:Ht.
      * destruct (coerce typ x) eqn:Hc.
        -- apply lookup_insert_eq.
        -- rewrite IH, Hi. reflexivity.
      * rewrite IH, Hi. reflexivity.
    + rewrite (lookup_insert_ne m) by done.
      destruct (encoder_options !! i) as [typ|]; [|apply IH].
      destruct (coerce typ x); [|apply IH].
      rewrite lookup_insert_ne by done. apply IH.
Qed.

Lemma safe_options_kind encoder_options opts k v :
  BaseCodec.safe_options encoder_options opts !! k = Some v →
  ∃ typ, encoder_options !! k = Some typ ∧ has_kind typ v = true.
Proof.
  rewrite safe_options_lookup. unfold sanitized.
  destruct (opts !! k) as [raw|]; [|discriminate].
  destruct (encoder_options !! k) as [typ|]; [|discriminate].
  destruct (coerce typ raw) eqn:Hc; [|discriminate].
  intros [= <-]. eauto using coerce_kind.
Qed.

(** C5. Whatever the table and the raw dictionary, [safe_options] returns
    a dictionary (it has no failing case) in which every key is a key of
    the table and of the raw dictionary, holding the typecast of the raw
    value, which is of the declared kind; a key that the table does not
    declare, and a key whose value the typecast rejects, is not in the
    result. *)
Theorem safe_options_sanitizes
    (encoder_options : gmap string kind) (opts : gmap string pyval) :
  let safe := BaseCodec.safe_options encoder_options opts in
  (∀ k v, safe !! k = Some v →
     ∃ typ raw, encoder_options !! k = Some typ ∧ opts !! k = Some raw
                ∧ coerce typ raw = Ok v ∧ has_kind typ v = true)
  ∧ (∀ k, encoder_options !! k = None → safe !! k = None)
  ∧ (∀ k typ raw e, encoder_options !! k = Some typ →
       opts !! k = Some raw → coerce typ raw = Err e → safe !! k = None)
  ∧ (∀ k typ raw v, encoder_options !! k = Some typ →
       opts !! k = Some raw → coerce typ raw = Ok v → safe !! k = Some v).
Proof.
  cbv zeta. repeat split.
  - intros k v. rewrite safe_options_lookup. unfold sanitized.
    destruct (opts !! k) as [raw|]; [|discriminate].
    destruct (encoder_options !! k) as [typ|]; [|discriminate].
    destruct (coerce typ raw) eqn:Hc; [|discriminate].
    intros [= <-]. exists typ, raw. eauto using coerce_kind.
  - intros k Hk. rewrite safe_options_lookup. unfold sanitized.
    rewrite Hk. destruct (opts !! k); reflexivity.
  - intros k typ raw e Hk Hraw Hc. rewrite safe_options_lookup.
    unfold sanitized. rewrite Hk, Hraw, Hc. reflexivity.
  - intros k typ raw v Hk Hraw Hc. rewrite safe_options_lookup.
    unfold sanitized. rewrite Hk, Hraw, Hc. reflexivity.
Qed.

Lemma safe_options_sanitizes_witness :
  let safe :=
    BaseCodec.safe_options AudioCodec.base_encoder_options
      {[ "codec" := VStr "mp3"; "bitrate" := VStr "12x";
         "channels" := VStr " 2 "; "title" := VStr "demo" ]} in
  safe !! "title" = None ∧ safe !! "bitrate" = None
  ∧ safe !! "channels" = Some (VInt 2).
Proof.
  pose proof (safe_options_sanitizes AudioCodec.base_encoder_options
    {[ "codec" := VStr "mp3"; "bitrate" := VStr "12x";
       "channels" := VStr " 2 "; "title" := VStr "demo" ]})
    as (_ & Hundeclared & Hrejected & Hkept).
  cbv zeta. split; [|split].
  - apply Hundeclared. reflexivity.
  - eapply Hrejected; reflexivity.
  - eapply Hkept; reflexivity.
Defined.

(** ** Range checks on a sanitized dictionary *)

Lemma lookup_del_outside_ne k k' lo hi (safe : gmap string pyval) :
  k ≠ k' → del_outside k lo hi safe !! k' = safe !! k'.
Proof.
  intros Hne. unfold del_outside.
  destruct (get_int safe k) as [x|]; [|reflexivity].
  destruct ((x <? lo) || (x >? hi)); [|reflexivity].
  by rewrite lookup_delete_ne.
Qed.

Lemma lookup_del_outside_int k lo hi (safe : gmap string pyval) x :
  safe !! k = Some (VInt x) →
  del_outside k lo hi safe !! k
  = if (x <? lo) || (x >? hi) then None else Some (VInt x).
Proof.
  intros Hk. unfold del_outside, get_int. rewrite Hk.
  destruct ((x <? lo) || (x >? hi)); [apply lookup_delete_eq | exact Hk].
Qed.

Lemma lookup_del_outside_None k lo hi (safe : gmap string pyval) :
  safe !! k = None → del_outside k lo hi safe !! k = None.
Proof. intros Hk. unfold del_outside, get_int. by rewrite Hk. Qed.

(** A value that [safe_options] stored under a [str] key is a string, and
    under an [int] key an int. *)
Lemma safe_str_key encoder_options opts k v :
  encoder_options !! k = Some KStr →
  BaseCodec.safe_options encoder_options opts !! k = Some v →
  ∃ s, v = VStr s.
Proof.
  intros Hk Hv. apply safe_options_kind in Hv as (typ & Ht & Hkind).
  rewrite Hk in Ht. injection Ht as <-.
  destruct v; try discriminate. eauto.
Qed.

Lemma safe_int_key encoder_options opts k v :
  encoder_options !! k = Some KInt →
  BaseCodec.safe_options encoder_options opts !! k = Some v →
  ∃ n, v = VInt n.
Proof.
  intros Hk Hv. apply safe_options_kind in Hv as (typ & Ht & Hkind).
  rewrite Hk in Ht. injection Ht as <-.
  destruct v; try discriminate. eauto.
Qed.

(** ** Subtitle codecs *)

(** C10. For each of the subtitle classes [mov_text], [ass], [subrip],
    [dvbsub] and [dvdsub] and every option dictionary whose [codec] is the
    name of the class, [SubtitleCodec.parse_options] returns exactly
    [['-scodec', <engine codec name>]], whatever [language], [forced] and
    [default] hold. *)
Theorem subtitle_fragment_is_scodec
    (self : subtitle_codec) (opt : gmap string pyval) :
  BaseCodec.parse_options (SubtitleCodec.codec_name self) opt = Ok tt →
  SubtitleCodec.parse_options self opt
  = Ok [VStr "-scodec"; VStr (SubtitleCodec.ffmpeg_codec_name self)].
Proof.
  intros Hcodec. unfold SubtitleCodec.parse_options.
  rewrite Hcodec. simpl.
  rewrite !lookup_del_outside_ne by done.
  destruct (BaseCodec.safe_options SubtitleCodec.encoder_options opt
              !! "language") as [l|] eqn:Hl; [|reflexivity].
  apply safe_str_key in Hl as [s ->]; [|reflexivity].
  reflexivity.
Qed.

Lemma subtitle_fragment_is_scodec_witness :
  SubtitleCodec.parse_options SSA
    {[ "codec" := VStr "ass"; "language" := VStr "english";
       "forced" := VInt 1; "default" := VInt 7 ]}
  = Ok [VStr "-scodec"; VStr "ass"].
Proof. apply (subtitle_fragment_is_scodec SSA). reflexivity. Defined.

(** ** Decimal rendering *)

Lemma pretty_N_go_ne_letter x s s' :
  s ≠ String "a" s' → pretty_N_go x s ≠ String "a" s'.
Proof.
  revert s. induction (N.lt_wf_0 x) as [x _ IH]; intros s Hs.
  assert (x = 0 ∨ 0 < x)%N as [->|Hpos] by lia.
  - by rewrite pretty_N_go_0.
  - rewrite pretty_N_go_step by done. apply IH.
    { by apply N.div_lt. }
    unfold pretty_N_char. by repeat case_match.
Qed.

(** The rendering of an integer is never the flag [-ab]. *)
Lemma pretty_ne_ab (n : Z) : pretty n ≠ "-ab".
Proof.
  unfold pretty, pretty_Z. destruct n as [|p|p].
  - discriminate.
  - unfold pretty, pretty_positive, pretty, pretty_N.
    case_decide; [discriminate|].
    by apply (pretty_N_go_ne_dash (N.pos p) "" "ab").
  - unfold pretty, pretty_positive, pretty, pretty_N.
    case_decide; [discriminate|]. simpl. intros [= Hab].
    by apply (pretty_N_go_ne_letter (N.pos p) "" "b") in Hab.
Qed.

(** ** Audio codecs *)

Lemma lookup_del_outside_Some k k' lo hi (safe : gmap string pyval) v :
  del_outside k lo hi safe !! k' = Some v → safe !! k' = Some v.
Proof.
  unfold del_outside. destruct (get_int safe k) as [x|]; [|done].
  destruct ((x <? lo) || (x >? hi)); [|done].
  rewrite lookup_delete. case_decide; [discriminate | done].
Qed.

Lemma emit_str_int_no_ab flag k (safe : gmap string pyval) :
  flag ≠ "-ab" →
  (∀ v, safe !! k = Some v → ∃ n, v = VInt n) →
  VStr "-ab" ∉ emit_str flag k safe.
Proof.
  intros Hflag Hint. unfold emit_str.
  destruct (safe !! k) as [v|] eqn:Hv; [|apply not_elem_of_nil].
  destruct (Hint v eq_refl) as [n ->]. simpl.
  rewrite !not_elem_of_cons. repeat split.
  - intros [= H]. by apply Hflag.
  - intros [= H]. by apply (pretty_ne_ab n).
  - apply not_elem_of_nil.
Qed.

Lemma audio_specific_no_ab self opt (safe : gmap string pyval) :
  (∀ k v, safe !! k = Some v →
     BaseCodec.safe_options (AudioCodec.encoder_options self) opt !! k
     = Some v) →
  VStr "-ab" ∉ AudioCodec._codec_specific_produce_ffmpeg_list self safe.
Proof.
  intros Hsafe.
  destruct self; simpl; try apply not_elem_of_nil.
  - unfold emit_raw.
    destruct (safe !! "quality") as [v|] eqn:Hv; [|apply not_elem_of_nil].
    apply Hsafe, safe_int_key in Hv as [n ->]; [|reflexivity].
    rewrite !not_elem_of_cons. repeat split; try discriminate.
    apply not_elem_of_nil.
  - rewrite !not_elem_of_cons. repeat split; try discriminate.
    apply not_elem_of_nil.
Qed.

(** C7. For each audio class and every option dictionary whose [codec] is
    the name of the class and whose [bitrate] typecasts to the integer
    [br]: [AudioCodec.parse_options] returns a fragment; when [br] is
    below 8 or above 512 the flag [-ab] does not occur in it at all; when
    [8 <= br <= 512] the fragment holds [-ab] once, followed by the
    rendering of [br] itself with the suffix [k]. *)
Theorem audio_bitrate_dropped_or_kept
    (self : audio_codec) (opt : gmap string pyval) (raw : pyval) (br : Z) :
  BaseCodec.parse_options (AudioCodec.codec_name self) opt = Ok tt →
  opt !! "bitrate" = Some raw →
  py_int raw = Ok br →
  ∃ head tail,
    (VStr "-ab" ∉ head) ∧ (VStr "-ab" ∉ tail) ∧
    AudioCodec.parse_options self opt
    = Ok (head
          ++ (if (br <? 8) || (br >? 512) then []
              else [VStr "-ab"; VStr (pretty br +:+ "k")])
          ++ tail).
Proof.
  intros Hcodec Hraw Hint.
  unfold AudioCodec.parse_options. rewrite Hcodec. simpl.
  unfold AudioCodec._codec_specific_parse_options.
  set (safe0 := BaseCodec.safe_options (AudioCodec.encoder_options self) opt).
  set (safe1 := del_outside "channels" 1 12 safe0).
  set (safe2 := del_outside "bitrate" 8 512 safe1).
  set (safe3 := del_outside "samplerate" 1000 50000 safe2).
  assert (Hback : ∀ k v, safe3 !! k = Some v → safe0 !! k = Some v).
  { intros k v H. subst safe3 safe2 safe1.
    by repeat apply lookup_del_outside_Some in H. }
  assert (Hbr0 : safe0 !! "bitrate" = Some (VInt br)).
  { subst safe0. rewrite safe_options_lookup. unfold sanitized.
    rewrite Hraw.
    replace (AudioCodec.encoder_options self !! "bitrate") with (Some KInt)
      by (by destruct self).
    simpl. by rewrite Hint. }
  assert (Hbr : safe3 !! "bitrate"
                = if (br <? 8) || (br >? 512) then None
                  else Some (VInt br)).
  { subst safe3 safe2 safe1.
    rewrite lookup_del_outside_ne by done.
    apply lookup_del_outside_int.
    by rewrite lookup_del_outside_ne. }
  assert (Hkey : ∀ k, AudioCodec.encoder_options self !! k = Some KInt →
            ∀ v, safe3 !! k = Some v → ∃ n, v = VInt n).
  { intros k Hk v Hv. apply Hback in Hv.
    by apply (safe_int_key _ _ _ _ Hk Hv). }
  exists ([VStr "-acodec"; VStr (AudioCodec.ffmpeg_codec_name self)]
          ++ emit_str "-ac" "channels" safe3),
         (emit_str "-ar" "samplerate" safe3
          ++ AudioCodec._codec_specific_produce_ffmpeg_list self safe3).
  split; [|split].
  - rewrite not_elem_of_app, !not_elem_of_cons. repeat split.
    + discriminate.
    + intros [= H]. by destruct self.
    + apply not_elem_of_nil.
    + apply emit_str_int_no_ab; [discriminate|].
      apply Hkey. by destruct self.
  - rewrite not_elem_of_app. split.
    + apply emit_str_int_no_ab; [discriminate|].
      apply Hkey. by destruct self.
    + by apply (audio_specific_no_ab self opt).
  - f_equal. unfold emit_str_k. rewrite Hbr.
    destruct ((br <? 8) || (br >? 512)); simpl;
      by rewrite <- ?app_assoc.
Qed.

Lemma audio_bitrate_dropped_or_kept_witness :
  (∃ head tail, (VStr "-ab" ∉ head) ∧ (VStr "-ab" ∉ tail) ∧
     AudioCodec.parse_options Mp3Codec
       {[ "codec" := VStr "mp3"; "bitrate" := VInt 7 ]}
     = Ok (head ++ [] ++ tail))
  ∧ (∃ head tail, (VStr "-ab" ∉ head) ∧ (VStr "-ab" ∉ tail) ∧
     AudioCodec.parse_options Mp3Codec
       {[ "codec" := VStr "mp3"; "bitrate" := VInt 8 ]}
     = Ok (head ++ [VStr "-ab"; VStr "8k"] ++ tail)).
Proof.
  split.
  - apply (audio_bitrate_dropped_or_kept Mp3Codec
             {[ "codec" := VStr "mp3"; "bitrate" := VInt 7 ]} (VInt 7) 7);
      reflexivity.
  - apply (audio_bitrate_dropped_or_kept Mp3Codec
             {[ "codec" := VStr "mp3"; "bitrate" := VInt 8 ]} (VInt 8) 8);
      reflexivity.
Defined.

(** ** The geometry resolver *)

(** C1. [Fit] and [ShrinkToFit] on a 1920x1080 source and the bounds
    640x480: the resolved size is 853x480, wider than [max_width]. The
    test [float(sh/sw) < float(max_height)] compares the integer quotient
    of the source sides with the height bound, so the width is scaled by
    [max_height/sh] without regard to [max_width]. *)
Theorem fit_exceeds_max_width :
  VideoCodec._aspect_corrections
    (Some 1920) (Some 1080) (Some 640) (Some 480) "Fit"
  = Ok (Some 853, Some 480, None)
  ∧ VideoCodec._aspect_corrections
      (Some 1920) (Some 1080) (Some 640) (Some 480) "ShrinkToFit"
    = Ok (Some 853, Some 480, None)
  ∧ 640 < 853.
Proof. split; [|split]; [vm_compute; reflexivity .. | lia]. Qed.

(** C3. [ShrinkToFill] when neither source side is below its bound: every
    such call ends in the [UnboundLocalError] of the read of [factor],
    instead of returning the source size. *)
Theorem shrink_to_fill_passthrough_raises (sw sh max_width max_height : Z) :
  0 < sw → 0 < sh → 0 < max_width → 0 < max_height →
  ¬ (sh < max_height ∨ sw < max_width) →
  VideoCodec._aspect_corrections
    (Some sw) (Some sh) (Some max_width) (Some max_height) "ShrinkToFill"
  = Err UnboundLocalError.
Proof.
  intros Hsw Hsh Hmw Hmh Hnot. unfold VideoCodec._aspect_corrections.
  replace (max_width =? 0) with false by lia.
  replace (max_height =? 0) with false by lia.
  replace (sw =? 0) with false by lia.
  replace (sh =? 0) with false by lia.
  replace (sh <? max_height) with false by lia.
  replace (sw <? max_width) with false by lia.
  reflexivity.
Qed.

Lemma shrink_to_fill_passthrough_raises_witness :
  VideoCodec._aspect_corrections
    (Some 1280) (Some 720) (Some 640) (Some 480) "ShrinkToFill"
  = Err UnboundLocalError.
Proof. apply shrink_to_fill_passthrough_raises; lia. Defined.

(** ** Video codecs *)

(** The bound call [self._div_by_2(x)] is a [TypeError] whatever [x] is. *)
Lemma bound_div_by_2_raises (x : option Z) :
  VideoCodec._div_by_2 [ASelf; ADim x] = Err TypeError.
Proof. reflexivity. Qed.

(** The function itself, given one number, returns the even number at or
    just above it. *)
Lemma div_by_2_even (d : Z) :
  ∃ d', VideoCodec._div_by_2 [ADim (Some d)] = Ok (Some d')
        ∧ d' mod 2 = 0 ∧ d ≤ d' ≤ d + 1.
Proof.
  simpl. destruct (d mod 2 =? 0) eqn:Hd; eexists; split; try reflexivity.
  - split; lia.
  - split; [|lia].
    assert (d mod 2 = 1) by (pose proof (Z.mod_pos_bound d 2); lia).
    rewrite Z.add_mod by lia. replace (d mod 2) with 1 by lia.
    reflexivity.
Qed.

(** No call of [VideoCodec.parse_options] returns a fragment. *)
Lemma video_parse_options_raises
    (self : video_codec) (opt : gmap string pyval) :
  ∃ e, VideoCodec.parse_options self opt = Err e.
Proof.
  unfold VideoCodec.parse_options.
  destruct (BaseCodec.parse_options _ opt); simpl; [|eauto].
  destruct (VideoCodec._aspect_corrections _ _ _ _ _) as [[[w h] f]|];
    simpl; eauto.
Qed.

(** C2. A request for [h264] with an 853x480 source kept as it is: the
    width is odd and has to become 854, yet [parse_options] stops with the
    [TypeError] of the call [self._div_by_2(w)] and emits no [-s] token. *)
Theorem odd_width_not_corrected :
  VideoCodec._aspect_corrections
    (Some 853) (Some 480) (Some 640) (Some 480) "Keep"
  = Ok (Some 853, Some 480, None)
  ∧ VideoCodec.parse_options H264Codec
      {[ "codec" := VStr "h264"; "src_width" := VInt 853;
         "src_height" := VInt 480; "max_width" := VInt 640;
         "max_height" := VInt 480; "sizing_policy" := VStr "Keep" ]}
    = Err TypeError.
Proof. split; vm_compute; reflexivity. Qed.

(** C8. The Vorbis class puts the value of [quality] into its fragment as
    the int that [safe_options] stored, not as a string. *)
Theorem vorbis_quality_is_raw_int :
  AudioCodec.parse_options VorbisCodec
    {[ "codec" := VStr "vorbis"; "quality" := VInt 5 ]}
  = Ok [VStr "-acodec"; VStr "libvorbis"; VStr "-qscale:a"; VInt 5].
Proof. vm_compute. reflexivity. Qed.

(** C9. With [autorotate] true and [src_rotate = 0], and a source size
    given so that the resolver returns, [parse_options] does not get as far
    as the lookup in the table of transpose filters: it stops with the
    [TypeError] of the call [self._div_by_2(w)]. The lookup itself is as
    the claim has it: the table holds the three filters under 90, 180 and
    270, and [_autorotate] is a [KeyError] on 0 and on every other
    value. *)
Theorem autorotate_lookup_not_reached :
  VideoCodec.parse_options H264Codec
    {[ "codec" := VStr "h264"; "autorotate" := VBool true;
       "src_rotate" := VInt 0; "src_width" := VInt 640;
       "src_height" := VInt 480 ]}
  = Err TypeError
  ∧ VideoCodec._aspect_corrections (Some 640) (Some 480) None None "Keep"
    = Ok (Some 640, Some 480, None)
  ∧ VideoCodec._autorotate (VInt 0) = Err KeyError
  ∧ VideoCodec._autorotate (VInt 90) = Ok "transpose=1"
  ∧ VideoCodec._autorotate (VInt 180) = Ok "transpose=2,transpose=2"
  ∧ VideoCodec._autorotate (VInt 270) = Ok "transpose=2"
  ∧ ∀ src_rotate,
      src_rotate ≠ VInt 90 → src_rotate ≠ VInt 180 →
      src_rotate ≠ VInt 270 →
      VideoCodec._autorotate src_rotate = Err KeyError.
Proof.
  split; [vm_compute; reflexivity|].
  do 5 (split; [reflexivity|]).
  intros src_rotate H90 H180 H270.
  destruct src_rotate as [|b|n|s]; try reflexivity.
  simpl.
  destruct (n =? 90) eqn:E1; [apply Z.eqb_eq in E1; congruence|].
  destruct (n =? 180) eqn:E2; [apply Z.eqb_eq in E2; congruence|].
  destruct (n =? 270) eqn:E3; [apply Z.eqb_eq in E3; congruence|].
  reflexivity.
Qed.

Lemma autorotate_lookup_not_reached_witness :
  VideoCodec._autorotate (VInt 45) = Err KeyError.
Proof.
  destruct autorotate_lookup_not_reached as (_ & _ & _ & _ & _ & _ & Hother).
  apply Hother; discriminate.
Defined.

(** ** The registries *)

Lemma registry_name {C : Type} (name : C → option string) (l : list C) k cls :
  registry name l !! k = Some cls → name cls = k.
Proof.
  unfold registry.
  cut (∀ m : gmap (option string) C,
         (∀ k cls, m !! k = Some cls → name cls = k) →
         ∀ k cls, foldl (λ m cls, <[name cls := cls]> m) m l !! k = Some cls →
                  name cls = k).
  { intros Hcut. apply Hcut. intros k' cls'. by rewrite lookup_empty. }
  induction l as [|c l IH]; intros m Hm k' cls'; simpl; [apply Hm|].
  apply IH. intros k0 cls0. rewrite lookup_insert.
  case_decide; [intros [= <-]; done | apply Hm].
Qed.

Lemma null_audio_options :
  Converter.stream_options Converter.audio_codecs audio_parse_options
    "audio" {[ "codec" := VNone ]} = Ok [VStr "-an"].
Proof. reflexivity. Qed.



(** ** The facade *)

Ltac inv_bind H :=
  match type of H with
  | rbind ?r ?k = Ok _ =>
    let a := fresh "a" in
    let Ha := fresh "E" in
    apply rbind_ok in H as (a & Ha & H)
  end.

Section ConverterProperties.

Variable format_list : list Format.
Variable parse_time : topval → result pyval.

Abbreviation formats := (Converter.formats format_list).
Abbreviation parse_options :=
  (Converter.parse_options format_list parse_time).



(** The two passes of a request: the second pass accepted with [l2] makes
    the first pass accepted, with one and the same [rest]; [audio] is the
    fragment of the section that the second pass reads for the audio
    stream. *)
Lemma two_pass_core (d : gmap string topval) (l2 : list pyval) :
  parse_options (Request d) (VInt 2) = Ok l2 →
  ∃ audio rest opt_audio,
    l2 = audio ++ rest ++ [VStr "-pass"; VStr "2"]
    ∧ parse_options (Request d) (VInt 1)
      = Ok ([VStr "-an"] ++ rest ++ [VStr "-pass"; VStr "1"])
    ∧ Converter.stream_section d "audio" (bool_decide (d !! "audio" = None))
      = Ok opt_audio
    ∧ Converter.stream_options Converter.audio_codecs audio_parse_options
        "audio" opt_audio = Ok audio.
Proof.
  intros H. unfold Converter.parse_options in *.
  destruct (d !! "format") as [[f|fd]|] eqn:Hf; try discriminate.
  destruct (registry_get formats f) as [cls|] eqn:Hreg; [|discriminate].
  destruct (BaseFormat.parse_options cls d) as [fo|]; [|discriminate].
  simpl in *.
  destruct (bool_decide (d !! "audio" = None)
            && bool_decide (d !! "video" = None)); [discriminate|].
  rewrite orb_true_r. rewrite orb_false_r in H. simpl.
  rewrite null_audio_options. simpl.
  apply rbind_ok in H as (opt_audio & Hsection & H).
  apply rbind_ok in H as (audio & Haudio & H).
  destruct (Converter.stream_section d "video" _) as [opt_video|];
    [|discriminate]. simpl in *.
  destruct (Converter.stream_options Converter.video_codecs _ _ opt_video)
    as [video|]; [|discriminate]. simpl in *.
  destruct (Converter.stream_section d "subtitle" _) as [opt_subtitle|];
    [|discriminate]. simpl in *.
  destruct (Converter.stream_options Converter.subtitle_codecs _ _
              opt_subtitle) as [subtitle|]; [|discriminate]. simpl in *.
  destruct (match d !! "map" with Some _ => _ | None => _ end) as [fo1|];
    [|discriminate]. simpl in *.
  destruct (match d !! "start" with Some _ => _ | None => _ end) as [fo2|];
    [|discriminate]. simpl in *.
  destruct (match d !! "duration" with Some _ => _ | None => _ end)
    as [fo3|]; [|discriminate]. simpl in *.
  injection H as <-.
  exists audio, (video ++ subtitle ++ fo3), opt_audio.
  split; [|split; [|split]].
  - by rewrite <- !app_assoc.
  - simpl. by rewrite <- !app_assoc.
  - exact Hsection.
  - exact Haudio.
Qed.

(** The fragment of the audio section is [['-an']] exactly when the
    request has no audio section or the codec of the section is [None]:
    every other registered class starts its fragment with [-acodec]. *)
Lemma audio_fragment_is_null (d : gmap string topval) opt_audio audio :
  Converter.stream_section d "audio" (bool_decide (d !! "audio" = None))
  = Ok opt_audio →
  Converter.stream_options Converter.audio_codecs audio_parse_options
    "audio" opt_audio = Ok audio →
  audio = [VStr "-an"]
  ↔ (d !! "audio" = None
     ∨ ∃ a, d !! "audio" = Some (Dict a) ∧ a !! "codec" = Some VNone).
Proof.
  unfold Converter.stream_section. intros Hsection Haudio.
  destruct (d !! "audio") as [[v|a]|] eqn:Ha; simpl in Hsection.
  - discriminate.
  - destruct (a !! "codec") as [c|] eqn:Hc; [|discriminate].
    injection Hsection as <-.
    unfold Converter.stream_options in Haudio. rewrite Hc in Haudio.
    destruct (registry_get Converter.audio_codecs c) as [cls|] eqn:Hcls;
      [|discriminate].
    split.
    + intros ->. right. exists a. split; [done|].
      destruct cls as [| |ac]; simpl in Haudio.
      * destruct c as [|b|n|s]; simpl in Hcls; try discriminate Hcls;
          [done|].
        apply registry_name in Hcls. discriminate Hcls.
      * discriminate.
      * unfold AudioCodec.parse_options in Haudio.
        apply rbind_ok in Haudio as (u & _ & Haudio). discriminate.
    + intros [Hnone|(a' & [= <-] & Hc')]; [discriminate|].
      rewrite Hc in Hc'. injection Hc' as ->.
      vm_compute in Hcls. injection Hcls as <-.
      simpl in Haudio. by injection Haudio.
  - injection Hsection as <-. rewrite null_audio_options in Haudio.
    injection Haudio as <-. split; auto.
Qed.

(** C4, amended. When the second pass of a request is accepted with the
    list [l2], the first pass is accepted as well, and the two lists are
    [audio ++ rest ++ ['-pass', '2']] and
    [['-an'] ++ rest ++ ['-pass', '1']] for one and the same [rest]: the
    first pass replaces the audio section by the null codec. [audio] is the
    fragment of the audio section of the request. The two lists are one
    common list followed by the two pass tokens exactly when [audio] is
    [['-an']], which is exactly when the request has no audio section or
    the codec of its audio section is [None]. *)
Theorem two_pass_lists (d : gmap string topval) (l2 : list pyval) :
  parse_options (Request d) (VInt 2) = Ok l2 →
  ∃ audio rest,
    l2 = audio ++ rest ++ [VStr "-pass"; VStr "2"]
    ∧ parse_options (Request d) (VInt 1)
      = Ok ([VStr "-an"] ++ rest ++ [VStr "-pass"; VStr "1"])
    ∧ (∀ a, d !! "audio" = Some (Dict a) →
         Converter.stream_options Converter.audio_codecs
           audio_parse_options "audio" a = Ok audio)
    ∧ (audio = [VStr "-an"]
       ↔ (d !! "audio" = None
          ∨ ∃ a, d !! "audio" = Some (Dict a) ∧ a !! "codec" = Some VNone))
    ∧ ((∃ body,
          l2 = body ++ [VStr "-pass"; VStr "2"]
          ∧ parse_options (Request d) (VInt 1)
            = Ok (body ++ [VStr "-pass"; VStr "1"]))
       ↔ audio = [VStr "-an"]).
Proof.
  intros H.
  destruct (two_pass_core d l2 H)
    as (audio & rest & opt_audio & Hl2 & Hl1 & Hsection & Haudio).
  exists audio, rest. split; [exact Hl2|]. split; [exact Hl1|].
  split; [|split].
  - intros a Ha. unfold Converter.stream_section in Hsection.
    rewrite Ha in Hsection. simpl in Hsection.
    destruct (a !! "codec"); [|discriminate].
    by injection Hsection as <-.
  - by apply (audio_fragment_is_null d opt_audio).
  - rewrite Hl1. split.
    + intros (body & Hb2 & Hb1).
      assert (Hbody : [VStr "-an"] ++ rest = body).
      { apply (app_inv_tail [VStr "-pass"; VStr "1"]).
        rewrite <- app_assoc. by injection Hb1. }
      subst body. rewrite Hl2 in Hb2.
      rewrite (app_assoc audio) in Hb2.
      apply (app_inv_tail _ (audio ++ rest) ([VStr "-an"] ++ rest)) in Hb2.
      by apply (app_inv_tail rest audio [VStr "-an"]) in Hb2.
    + intros ->. exists ([VStr "-an"] ++ rest).
      rewrite Hl2. by rewrite <- !app_assoc.
Qed.

End ConverterProperties.



(** C4, as stated, fails: the two passes of an audio-only Vorbis request
    are accepted, and no common list is extended by [-pass 1] in the one and
    by [-pass 2] in the other. *)
Lemma two_pass_audio_differs :
  ¬ ∃ body,
      Converter.parse_options ogg_only no_time
        (Request {[ "format" := Scalar (VStr "ogg");
                    "audio" := Dict {[ "codec" := VStr "vorbis" ]} ]})
        (VInt 1)
      = Ok (body ++ [VStr "-pass"; VStr "1"])
      ∧ Converter.parse_options ogg_only no_time
          (Request {[ "format" := Scalar (VStr "ogg");
                      "audio" := Dict {[ "codec" := VStr "vorbis" ]} ]})
          (VInt 2)
        = Ok (body ++ [VStr "-pass"; VStr "2"]).
Proof.
  intros (body & H1 & H2).
  vm_compute in H1. vm_compute in H2.
  injection H1 as H1. injection H2 as H2.
  change ([VStr "-an"; VStr "-vn"; VStr "-sn"; VStr "-f"; VStr "ogg"]
          ++ [VStr "-pass"; VStr "1"] = body ++ [VStr "-pass"; VStr "1"])
    in H1.
  apply app_inv_tail in H1. subst body. discriminate.
Qed.

Lemma two_pass_lists_witness :
  (∃ audio rest,
     [VStr "-acodec"; VStr "libvorbis"; VStr "-vn"; VStr "-sn"; VStr "-f";
      VStr "ogg"; VStr "-pass"; VStr "2"]
     = audio ++ rest ++ [VStr "-pass"; VStr "2"]
     ∧ Converter.parse_options ogg_only no_time
         (Request {[ "format" := Scalar (VStr "ogg");
                     "audio" := Dict {[ "codec" := VStr "vorbis" ]} ]})
         (VInt 1)
       = Ok ([VStr "-an"] ++ rest ++ [VStr "-pass"; VStr "1"]))
  ∧ (∃ body,
       [VStr "-an"; VStr "-vcodec"; VStr "copy"; VStr "-sn"; VStr "-f";
        VStr "ogg"; VStr "-pass"; VStr "2"]
       = body ++ [VStr "-pass"; VStr "2"]
       ∧ Converter.parse_options ogg_only no_time
           (Request {[ "format" := Scalar (VStr "ogg");
                       "audio" := Dict {[ "codec" := VNone ]};
                       "video" := Dict {[ "codec" := VStr "copy" ]} ]})
           (VInt 1)
         = Ok (body ++ [VStr "-pass"; VStr "1"])).
Proof.
  split.
  - destruct (two_pass_lists ogg_only no_time
                {[ "format" := Scalar (VStr "ogg");
                   "audio" := Dict {[ "codec" := VStr "vorbis" ]} ]}
                [VStr "-acodec"; VStr "libvorbis"; VStr "-vn"; VStr "-sn";
                 VStr "-f"; VStr "ogg"; VStr "-pass"; VStr "2"])
      as (audio & rest & Hl2 & Hl1 & _); [reflexivity|].
    exists audio, rest. split; assumption.
  - destruct (two_pass_lists ogg_only no_time
                {[ "format" := Scalar (VStr "ogg");
                   "audio" := Dict {[ "codec" := VNone ]};
                   "video" := Dict {[ "codec" := VStr "copy" ]} ]}
                [VStr "-an"; VStr "-vcodec"; VStr "copy"; VStr "-sn";
                 VStr "-f"; VStr "ogg"; VStr "-pass"; VStr "2"])
      as (audio & rest & _ & _ & _ & Hnull & Hbody); [reflexivity|].
    apply Hbody, Hnull. right. exists {[ "codec" := VNone ]}.
    split; reflexivity.
Defined.

(** * Further properties of the code *)

(** ** Sanitization, continued *)

Lemma coerce_of_kind typ v : has_kind typ v = true → coerce typ v = Ok v.
Proof. destruct typ, v; simpl; try discriminate; reflexivity. Qed.

(** X1. Sanitizing a sanitized dictionary changes nothing. *)
Theorem safe_options_idempotent
    (encoder_options : gmap string kind) (opts : gmap string pyval) :
  BaseCodec.safe_options encoder_options
    (BaseCodec.safe_options encoder_options opts)
  = BaseCodec.safe_options encoder_options opts.
Proof.
  apply map_eq. intros k. rewrite safe_options_lookup. unfold sanitized.
  destruct (BaseCodec.safe_options encoder_options opts !! k) as [v|] eqn:Hv;
    [|reflexivity].
  destruct (safe_options_kind _ _ _ _ Hv) as (typ & Ht & Hkind).
  rewrite Ht. by rewrite (coerce_of_kind _ _ Hkind).
Qed.

Lemma safe_options_insert_undeclared encoder_options opts k v :
  encoder_options !! k = None →
  BaseCodec.safe_options encoder_options (<[k := v]> opts)
  = BaseCodec.safe_options encoder_options opts.
Proof.
  intros Hk. apply map_eq. intros k'. rewrite !safe_options_lookup.
  unfold sanitized. destruct (decide (k = k')) as [<-|Hne].
  - rewrite Hk, lookup_insert_eq. by destruct (opts !! k).
  - by rewrite lookup_insert_ne.
Qed.

Lemma base_parse_options_insert name (opt : gmap string pyval) k v :
  k ≠ "codec" →
  BaseCodec.parse_options name (<[k := v]> opt)
  = BaseCodec.parse_options name opt.
Proof.
  intros Hk. unfold BaseCodec.parse_options. by rewrite lookup_insert_ne.
Qed.

(** X2. An option that the table of the class does not declare has no
    effect at all on what [parse_options] returns or raises, for every
    audio, subtitle and video class. *)
Theorem undeclared_option_has_no_effect
    (opt : gmap string pyval) (k : string) (v : pyval) :
  (∀ self, AudioCodec.encoder_options self !! k = None →
     AudioCodec.parse_options self (<[k := v]> opt)
     = AudioCodec.parse_options self opt)
  ∧ (∀ self, SubtitleCodec.encoder_options !! k = None →
       SubtitleCodec.parse_options self (<[k := v]> opt)
       = SubtitleCodec.parse_options self opt)
  ∧ (∀ self, VideoCodec.encoder_options self !! k = None →
       VideoCodec.parse_options self (<[k := v]> opt)
       = VideoCodec.parse_options self opt).
Proof.
  split; [|split]; intros self Hk.
  - assert (k ≠ "codec") by (intros ->; by destruct self).
    unfold AudioCodec.parse_options.
    by rewrite base_parse_options_insert, safe_options_insert_undeclared.
  - assert (k ≠ "codec") by (intros ->; done).
    unfold SubtitleCodec.parse_options.
    by rewrite base_parse_options_insert, safe_options_insert_undeclared.
  - assert (k ≠ "codec") by (intros ->; by destruct self).
    unfold VideoCodec.parse_options.
    by rewrite base_parse_options_insert, safe_options_insert_undeclared.
Qed.

Lemma undeclared_option_has_no_effect_witness :
  AudioCodec.parse_options Mp3Codec
    (<["quality" := VInt 5]> {[ "codec" := VStr "mp3"; "bitrate" := VInt 96 ]})
  = AudioCodec.parse_options Mp3Codec
      {[ "codec" := VStr "mp3"; "bitrate" := VInt 96 ]}.
Proof.
  apply (undeclared_option_has_no_effect
           {[ "codec" := VStr "mp3"; "bitrate" := VInt 96 ]}
           "quality" (VInt 5)).
  reflexivity.
Defined.

(** ** Audio codecs, continued *)

Lemma codec_is_spec v name :
  BaseCodec.codec_is v name = true ↔ v = VStr name.
Proof.
  destruct v as [|b|n|s]; simpl; split; try discriminate.
  - intros H. apply String.eqb_eq in H. by subst.
  - intros [= ->]. apply String.eqb_refl.
Qed.

Lemma base_parse_options_spec name (opt : gmap string pyval) :
  (opt !! "codec" = Some (VStr name) →
   BaseCodec.parse_options name opt = Ok tt)
  ∧ (opt !! "codec" ≠ Some (VStr name) →
     BaseCodec.parse_options name opt
     = Err (ValueError "invalid codec name")).
Proof.
  unfold BaseCodec.parse_options. split.
  - intros ->. by rewrite (proj2 (codec_is_spec _ _) eq_refl).
  - intros Hne. destruct (opt !! "codec") as [v|]; [|reflexivity].
    destruct (BaseCodec.codec_is v name) eqn:Hv; [|reflexivity].
    apply codec_is_spec in Hv. by subst.
Qed.

(** X3. An audio class accepts a dictionary exactly when its [codec] is
    the string naming the class: then the fragment starts with [-acodec]
    and the engine name of the class, whatever the other options hold;
    otherwise the call is the [ValueError] of the name check. *)
Theorem audio_accepts_iff_codec
    (self : audio_codec) (opt : gmap string pyval) :
  (opt !! "codec" = Some (VStr (AudioCodec.codec_name self)) →
   ∃ rest, AudioCodec.parse_options self opt
           = Ok (VStr "-acodec" :: VStr (AudioCodec.ffmpeg_codec_name self)
                 :: rest))
  ∧ (opt !! "codec" ≠ Some (VStr (AudioCodec.codec_name self)) →
     AudioCodec.parse_options self opt
     = Err (ValueError "invalid codec name")).
Proof.
  destruct (base_parse_options_spec (AudioCodec.codec_name self) opt)
    as [Hyes Hno].
  unfold AudioCodec.parse_options. split; intros H.
  - rewrite (Hyes H). simpl. eexists. rewrite <- !app_assoc. reflexivity.
  - by rewrite (Hno H).
Qed.

Lemma audio_accepts_iff_codec_witness :
  (∃ rest, AudioCodec.parse_options AacCodec
             {[ "codec" := VStr "aac"; "channels" := VNone ]}
           = Ok (VStr "-acodec" :: VStr "aac" :: rest))
  ∧ AudioCodec.parse_options AacCodec {[ "codec" := VStr "mp3" ]}
    = Err (ValueError "invalid codec name").
Proof.
  split.
  - apply (audio_accepts_iff_codec AacCodec). reflexivity.
  - apply (audio_accepts_iff_codec AacCodec). vm_compute. discriminate.
Defined.

Lemma emit_str_strings flag k (safe : gmap string pyval) x :
  x ∈ emit_str flag k safe → ∃ s, x = VStr s.
Proof.
  unfold emit_str. destruct (safe !! k) as [v|].
  - rewrite !elem_of_cons, elem_of_nil. intros [->|[->|[]]]; eauto.
  - by rewrite elem_of_nil.
Qed.

Lemma emit_str_k_strings flag k (safe : gmap string pyval) x :
  x ∈ emit_str_k flag k safe → ∃ s, x = VStr s.
Proof.
  unfold emit_str_k. destruct (safe !! k) as [v|].
  - rewrite !elem_of_cons, elem_of_nil. intros [->|[->|[]]]; eauto.
  - by rewrite elem_of_nil.
Qed.

(** X4. Every element of a fragment returned by an audio class other than
    Vorbis is a string. *)
Theorem audio_fragment_of_strings
    (self : audio_codec) (opt : gmap string pyval) (l : list pyval) :
  self ≠ VorbisCodec →
  AudioCodec.parse_options self opt = Ok l →
  ∀ x, x ∈ l → ∃ s, x = VStr s.
Proof.
  intros Hself H x. unfold AudioCodec.parse_options in H.
  inv_bind H. injection H as <-.
  rewrite !elem_of_cons, !elem_of_app.
  intros [->|[->|[[[Hx|Hx]|Hx]|Hx]]]; eauto.
  - by apply emit_str_strings in Hx.
  - by apply emit_str_k_strings in Hx.
  - by apply emit_str_strings in Hx.
  - revert Hx. destruct self; simpl; try done;
      rewrite ?elem_of_nil, ?elem_of_cons; try tauto.
    intros [->|[->|Hx]]; eauto. by apply elem_of_nil in Hx.
Qed.

Lemma audio_fragment_of_strings_witness :
  ∃ s, VStr "96k" = VStr s.
Proof.
  apply (audio_fragment_of_strings Mp3Codec
           {[ "codec" := VStr "mp3"; "channels" := VInt 2;
              "bitrate" := VInt 96 ]}
           [VStr "-acodec"; VStr "libmp3lame"; VStr "-ac"; VStr "2";
            VStr "-ab"; VStr "96k"]).
  - discriminate.
  - reflexivity.
  - rewrite !elem_of_cons. auto 10.
Defined.

Lemma safe_options_delete encoder_options opts k :
  BaseCodec.safe_options encoder_options (delete k opts)
  = delete k (BaseCodec.safe_options encoder_options opts).
Proof.
  apply map_eq. intros k'. rewrite lookup_delete, !safe_options_lookup.
  unfold sanitized. rewrite lookup_delete. by case_decide.
Qed.

Lemma del_outside_delete_ne k k' lo hi (m : gmap string pyval) :
  k ≠ k' →
  del_outside k lo hi (delete k' m) = delete k' (del_outside k lo hi m).
Proof.
  intros Hne. unfold del_outside, get_int. rewrite lookup_delete_ne by done.
  destruct (m !! k) as [[| |x|]|]; try reflexivity.
  destruct ((x <? lo) || (x >? hi)); [|reflexivity].
  apply delete_delete.
Qed.

Lemma del_outside_delete_eq k lo hi (m : gmap string pyval) :
  del_outside k lo hi (delete k m) = delete k (del_outside k lo hi m).
Proof.
  unfold del_outside, get_int. rewrite lookup_delete_eq.
  destruct (m !! k) as [[| |x|]|]; try reflexivity.
  destruct ((x <? lo) || (x >? hi)); [|reflexivity].
  by rewrite delete_delete_eq.
Qed.

Lemma emit_str_delete flag k k' (m : gmap string pyval) :
  emit_str flag k (delete k' m)
  = if decide (k' = k) then [] else emit_str flag k m.
Proof. unfold emit_str. rewrite lookup_delete. by case_decide. Qed.

Lemma emit_str_k_delete flag k k' (m : gmap string pyval) :
  emit_str_k flag k (delete k' m)
  = if decide (k' = k) then [] else emit_str_k flag k m.
Proof. unfold emit_str_k. rewrite lookup_delete. by case_decide. Qed.

Lemma audio_specific_delete self k (m : gmap string pyval) :
  k ≠ "quality" →
  AudioCodec._codec_specific_produce_ffmpeg_list self (delete k m)
  = AudioCodec._codec_specific_produce_ffmpeg_list self m.
Proof.
  intros Hk. destruct self; simpl; try reflexivity.
  unfold emit_raw. by rewrite lookup_delete_ne.
Qed.

Lemma audio_specific_del_outside self k lo hi (m : gmap string pyval) :
  k ≠ "quality" →
  AudioCodec._codec_specific_produce_ffmpeg_list self (del_outside k lo hi m)
  = AudioCodec._codec_specific_produce_ffmpeg_list self m.
Proof.
  intros Hk. destruct self; simpl; try reflexivity.
  unfold emit_raw. by rewrite lookup_del_outside_ne.
Qed.

Lemma safe_int_value encoder_options (opt : gmap string pyval) k raw n :
  encoder_options !! k = Some KInt →
  opt !! k = Some raw → py_int raw = Ok n →
  BaseCodec.safe_options encoder_options opt !! k = Some (VInt n).
Proof.
  intros Hk Hraw Hint. rewrite safe_options_lookup. unfold sanitized.
  rewrite Hraw, Hk. simpl. by rewrite Hint.
Qed.

(** X5. What [channels] and [samplerate] contribute to an audio fragment.
    With a matching codec and a value that typecasts to the integer [n],
    the fragment is the one of the same dictionary without the key, with
    [['-ac', str(n)]] put directly after the codec name when
    [1 <= n <= 12] and with nothing added otherwise; likewise
    [['-ar', str(n)]] for a sample rate with [1000 <= n <= 50000], put in
    front of the codec-specific tokens. *)
Theorem audio_channels_and_samplerate
    (self : audio_codec) (opt : gmap string pyval) (raw : pyval) (n : Z) :
  opt !! "codec" = Some (VStr (AudioCodec.codec_name self)) →
  py_int raw = Ok n →
  (opt !! "channels" = Some raw →
   ∃ tail,
     AudioCodec.parse_options self (delete "channels" opt)
     = Ok ([VStr "-acodec"; VStr (AudioCodec.ffmpeg_codec_name self)]
           ++ tail)
     ∧ AudioCodec.parse_options self opt
       = Ok ([VStr "-acodec"; VStr (AudioCodec.ffmpeg_codec_name self)]
             ++ (if (n <? 1) || (n >? 12) then []
                 else [VStr "-ac"; VStr (pretty n)])
             ++ tail))
  ∧ (opt !! "samplerate" = Some raw →
     ∃ head,
       AudioCodec.parse_options self (delete "samplerate" opt)
       = Ok (head
             ++ AudioCodec._codec_specific_produce_ffmpeg_list self
                  (BaseCodec.safe_options (AudioCodec.encoder_options self)
                     opt))
       ∧ AudioCodec.parse_options self opt
         = Ok (head
               ++ (if (n <? 1000) || (n >? 50000) then []
                   else [VStr "-ar"; VStr (pretty n)])
               ++ AudioCodec._codec_specific_produce_ffmpeg_list self
                    (BaseCodec.safe_options
                       (AudioCodec.encoder_options self) opt))).
Proof.
  intros Hcodec Hint.
  pose proof (proj1 (base_parse_options_spec _ opt) Hcodec) as Hacc.
  assert (Hacc' : ∀ k, k ≠ "codec" →
            BaseCodec.parse_options (AudioCodec.codec_name self)
              (delete k opt) = Ok tt).
  { intros k Hk. apply base_parse_options_spec.
    by rewrite lookup_delete_ne. }
  set (safe0 := BaseCodec.safe_options (AudioCodec.encoder_options self) opt).
  split; intros Hraw.
  - assert (H0 : safe0 !! "channels" = Some (VInt n)).
    { apply (safe_int_value _ _ _ raw); [by destruct self|done..]. }
    unfold AudioCodec.parse_options. rewrite Hacc, Hacc' by done. simpl.
    unfold AudioCodec._codec_specific_parse_options.
    rewrite safe_options_delete. fold safe0.
    rewrite del_outside_delete_eq, !del_outside_delete_ne by done.
    rewrite !emit_str_delete, emit_str_k_delete, audio_specific_delete
      by done.
    repeat case_decide; try done.
    eexists. split; [reflexivity|]. do 2 f_equal.
    rewrite <- !app_assoc. f_equal.
    unfold emit_str. rewrite !lookup_del_outside_ne by done.
    rewrite (lookup_del_outside_int _ _ _ _ _ H0).
    by destruct ((n <? 1) || (n >? 12)).
  - assert (H0 : safe0 !! "samplerate" = Some (VInt n)).
    { apply (safe_int_value _ _ _ raw); [by destruct self|done..]. }
    unfold AudioCodec.parse_options. rewrite Hacc, Hacc' by done. simpl.
    unfold AudioCodec._codec_specific_parse_options.
    rewrite safe_options_delete. fold safe0.
    rewrite !del_outside_delete_ne, del_outside_delete_eq by done.
    rewrite !emit_str_delete, emit_str_k_delete, audio_specific_delete
      by done.
    rewrite !audio_specific_del_outside by done.
    repeat case_decide; try done.
    rewrite app_nil_r.
    match goal with
    | |- ∃ head, Ok (?a :: ?b :: ?x ++ ?sp) = _ ∧ _ => exists (a :: b :: x)
    end.
    split; [reflexivity|]. simpl. do 3 f_equal.
    rewrite <- !app_assoc. do 3 f_equal.
    unfold emit_str.
    rewrite (lookup_del_outside_int "samplerate" 1000 50000 _ n).
    + by destruct ((n <? 1000) || (n >? 50000)).
    + by rewrite !lookup_del_outside_ne.
Qed.

Lemma audio_channels_and_samplerate_witness :
  (∃ tail,
     AudioCodec.parse_options Mp2Codec
       (delete "channels" {[ "codec" := VStr "mp2"; "channels" := VInt 13 ]})
     = Ok ([VStr "-acodec"; VStr "mp2"] ++ tail)
     ∧ AudioCodec.parse_options Mp2Codec
         {[ "codec" := VStr "mp2"; "channels" := VInt 13 ]}
       = Ok ([VStr "-acodec"; VStr "mp2"] ++ [] ++ tail)).
Proof.
  apply (audio_channels_and_samplerate Mp2Codec
           {[ "codec" := VStr "mp2"; "channels" := VInt 13 ]} (VInt 13) 13);
    reflexivity.
Defined.

(** ** The geometry resolver, continued *)

(** X6. When a source side or a bound is missing ([None]) or zero, the
    resolver returns the source size as it is, without a crop filter,
    whatever the policy string is. *)
Theorem aspect_passthrough_when_incomplete
    (sw sh max_width max_height : option Z) (sizing_policy : string) :
  truthy_dim sw && truthy_dim sh && truthy_dim max_width
    && truthy_dim max_height = false →
  VideoCodec._aspect_corrections sw sh max_width max_height sizing_policy
  = Ok (sw, sh, None).
Proof.
  unfold VideoCodec._aspect_corrections, truthy_dim.
  destruct sw as [sw|], sh as [sh|], max_width as [mw|],
    max_height as [mh|]; try reflexivity.
  destruct (mw =? 0), (mh =? 0), (sw =? 0), (sh =? 0);
    simpl; try reflexivity; discriminate.
Qed.

Lemma aspect_passthrough_when_incomplete_witness :
  VideoCodec._aspect_corrections (Some 1280) (Some 720) None (Some 480) "Fill"
  = Ok (Some 1280, Some 720, None).
Proof. apply aspect_passthrough_when_incomplete. reflexivity. Defined.

(** X8. [Keep] returns the source size unchanged on every input, and
    [Stretch] returns exactly the two bounds whenever the four values are
    present and not zero; neither adds a crop filter. *)
Theorem keep_and_stretch_exact (sw sh max_width max_height : option Z) :
  VideoCodec._aspect_corrections sw sh max_width max_height "Keep"
  = Ok (sw, sh, None)
  ∧ (truthy_dim sw && truthy_dim sh && truthy_dim max_width
       && truthy_dim max_height = true →
     VideoCodec._aspect_corrections sw sh max_width max_height "Stretch"
     = Ok (max_width, max_height, None)).
Proof.
  split.
  - unfold VideoCodec._aspect_corrections.
    destruct sw as [sw|], sh as [sh|], max_width as [mw|],
      max_height as [mh|]; try reflexivity.
    by destruct (mw =? 0), (mh =? 0), (sw =? 0), (sh =? 0).
  - rewrite !andb_true_iff. intros [[[Hsw Hsh] Hmw] Hmh].
    destruct sw as [sw|], sh as [sh|], max_width as [mw|],
      max_height as [mh|]; try discriminate.
    unfold VideoCodec._aspect_corrections. simpl in *.
    apply negb_true_iff in Hsw, Hsh, Hmw, Hmh.
    by rewrite Hsw, Hsh, Hmw, Hmh.
Qed.

Lemma keep_and_stretch_exact_witness :
  VideoCodec._aspect_corrections
    (Some 1920) (Some 1080) (Some 640) (Some 480) "Stretch"
  = Ok (Some 640, Some 480, None).
Proof.
  apply (keep_and_stretch_exact (Some 1920) (Some 1080) (Some 640) (Some 480)).
  reflexivity.
Defined.

Lemma scale_fit_shape sw sh mw mh w h f :
  VideoCodec.scale_fit sw sh mw mh = Ok (w, h, f) →
  f = None ∧ (w = Some mw ∨ h = Some mh).
Proof.
  unfold VideoCodec.scale_fit. intros H. do 2 inv_bind H.
  destruct (SFeqb a a0); [injection H as <- <- <-; auto|].
  destruct (SFltb a a0); repeat inv_bind H; injection H as <- <- <-; auto.
Qed.


(** X9. Whenever [Fit] returns, on four values that are present and not
    zero, there is no crop filter and one resolved side is exactly its
    bound. [ShrinkToFit] is the same when a source side exceeds its bound
    and returns the source size unchanged when neither does. *)
Theorem fit_matches_one_bound (sw sh mw mh : Z) w h f :
  sw ≠ 0 → sh ≠ 0 → mw ≠ 0 → mh ≠ 0 →
  (VideoCodec._aspect_corrections (Some sw) (Some sh) (Some mw) (Some mh)
     "Fit" = Ok (w, h, f) →
   f = None ∧ (w = Some mw ∨ h = Some mh))
  ∧ (VideoCodec._aspect_corrections (Some sw) (Some sh) (Some mw) (Some mh)
       "ShrinkToFit" = Ok (w, h, f) →
     f = None ∧
     if (sh >? mh) || (sw >? mw) then w = Some mw ∨ h = Some mh
     else w = Some sw ∧ h = Some sh).
Proof.
  intros Hsw Hsh Hmw Hmh. unfold VideoCodec._aspect_corrections.
  replace (mw =? 0) with false by lia. replace (mh =? 0) with false by lia.
  replace (sw =? 0) with false by lia. replace (sh =? 0) with false by lia.
  simpl. split.
  - apply scale_fit_shape.
  - destruct ((sh >? mh) || (sw >? mw)).
    + apply scale_fit_shape.
    + intros [= <- <- <-]. auto.
Qed.

Lemma fit_matches_one_bound_witness :
  None = (None : option string) ∧ (Some 853 = Some 640 ∨ Some 480 = Some 480).
Proof.
  apply (fit_matches_one_bound 1920 1080 640 480 (Some 853) (Some 480) None);
    [lia.. | vm_compute; reflexivity].
Defined.



Lemma rbind_err {A B} (r : result A) (k : A → result B) e :
  rbind r k = Err e → r = Err e ∨ ∃ a, r = Ok a ∧ k a = Err e.
Proof. destruct r as [a|e']; simpl; [eauto | intros [= ->]; auto]. Qed.

Lemma py_float_err n e : py_float n = Err e → e = OverflowError.
Proof.
  unfold py_float. destruct (binary_normalize 53 1024 n 0 false);
    try discriminate. by intros [= <-].
Qed.

Lemma py_trunc_err f e :
  py_trunc f = Err e →
  e = OverflowError ∨ e = ValueError "cannot convert float NaN to integer".
Proof. destruct f; simpl; try discriminate; intros [= <-]; auto. Qed.

Lemma py_fdiv_err x y e : py_fdiv x y = Err e → e = ZeroDivisionError.
Proof. destruct y; simpl; try discriminate. by intros [= <-]. Qed.

Lemma py_imulf_err n f e : py_imulf n f = Err e → e = OverflowError.
Proof.
  unfold py_imulf. intros H. apply rbind_err in H as [H|(a & _ & H)].
  - by apply py_float_err in H.
  - discriminate.
Qed.

Ltac arith_err H :=
  repeat match type of H with
  | rbind _ _ = Err _ =>
    let a := fresh "a" in
    apply rbind_err in H as [H|(a & _ & H)]
  | py_float _ = Err _ => apply py_float_err in H
  | py_fdiv _ _ = Err _ => apply py_fdiv_err in H
  | py_imulf _ _ = Err _ => apply py_imulf_err in H
  | py_trunc _ = Err _ => apply py_trunc_err in H
  | (if ?c then _ else _) = Err _ => destruct c
  | Ok _ = Err _ => discriminate H
  end.

Lemma scale_fit_err sw sh mw mh e :
  VideoCodec.scale_fit sw sh mw mh = Err e →
  e = OverflowError ∨ e = ZeroDivisionError
  ∨ e = ValueError "cannot convert float NaN to integer".
Proof. unfold VideoCodec.scale_fit. intros H. arith_err H; intuition. Qed.

Lemma scale_fill_err sw sh mw mh e :
  VideoCodec.scale_fill sw sh mw mh = Err e →
  e = OverflowError ∨ e = ZeroDivisionError
  ∨ e = ValueError "cannot convert float NaN to integer".
Proof. unfold VideoCodec.scale_fill. intros H. arith_err H; intuition. Qed.

(** X7. A policy string outside the six names makes the resolver return
    the source size unchanged. And the assertion that closes the function
    is never reached: the only exceptions that leave it are those of the
    float arithmetic and the [UnboundLocalError] of [ShrinkToFill]. *)
Theorem aspect_closing_assert_unreachable
    (sw sh max_width max_height : option Z) (sizing_policy : string) :
  (is_policy sizing_policy = false →
   VideoCodec._aspect_corrections sw sh max_width max_height sizing_policy
   = Ok (sw, sh, None))
  ∧ (∀ e,
       VideoCodec._aspect_corrections sw sh max_width max_height
         sizing_policy = Err e →
       e ≠ AssertionError
       ∧ (e = UnboundLocalError → sizing_policy = "ShrinkToFill")).
Proof.
  unfold VideoCodec._aspect_corrections.
  destruct sw as [sw|], sh as [sh|], max_width as [mw|],
    max_height as [mh|]; try (split; [reflexivity | discriminate]).
  destruct ((mw =? 0) || (mh =? 0) || (sw =? 0) || (sh =? 0));
    [split; [reflexivity | discriminate]|].
  split; [by intros ->|]. intros e.
  unfold is_policy, policies. simpl existsb.
  destruct (String.eqb sizing_policy "Fit") eqn:E1; simpl.
  { intros H%scale_fit_err. split; intuition congruence. }
  destruct (String.eqb sizing_policy "Fill") eqn:E2; simpl.
  { intros H%scale_fill_err. split; intuition congruence. }
  destruct (String.eqb sizing_policy "Stretch") eqn:E3; simpl;
    [discriminate|].
  destruct (String.eqb sizing_policy "Keep") eqn:E4; simpl; [discriminate|].
  destruct (String.eqb sizing_policy "ShrinkToFit") eqn:E5; simpl.
  { destruct ((sh >? mh) || (sw >? mw)); [|discriminate].
    intros H%scale_fit_err. split; intuition congruence. }
  destruct (String.eqb sizing_policy "ShrinkToFill") eqn:E6; simpl;
    [|discriminate].
  apply String.eqb_eq in E6.
  destruct ((sh <? mh) || (sw <? mw)).
  - intros H%scale_fill_err. split; intuition congruence.
  - intros [= <-]. split; [discriminate | done].
Qed.

Lemma aspect_closing_assert_unreachable_witness :
  VideoCodec._aspect_corrections
    (Some 1280) (Some 720) (Some 640) (Some 480) "Pad"
  = Ok (Some 1280, Some 720, None)
  ∧ UnboundLocalError ≠ AssertionError.
Proof.
  destruct (aspect_closing_assert_unreachable
              (Some 1280) (Some 720) (Some 640) (Some 480) "Pad") as [Hp _].
  destruct (aspect_closing_assert_unreachable
              (Some 1280) (Some 720) (Some 640) (Some 480) "ShrinkToFill")
    as [_ He].
  split.
  - apply Hp. reflexivity.
  - apply (He UnboundLocalError). reflexivity.
Defined.

(** ** The filter chain *)

Lemma index_of_None tok (l : list pyval) :
  index_of tok l = None ↔ VStr tok ∉ l.
Proof.
  induction l as [|x l IH]; simpl.
  - split; [intros _; apply not_elem_of_nil | done].
  - rewrite not_elem_of_cons.
    assert (Hrec : VStr tok ≠ x →
              S <$> index_of tok l = None ↔ VStr tok ≠ x ∧ VStr tok ∉ l).
    { intros Hx. rewrite fmap_None, IH. tauto. }
    destruct x as [|b|n|s]; try (apply Hrec; discriminate).
    destruct (String.eqb s tok) eqn:Hs.
    + apply String.eqb_eq in Hs as ->. split; [discriminate|].
      by intros [H _].
    + apply String.eqb_neq in Hs. apply Hrec. congruence.
Qed.

Lemma index_of_Some tok (l : list pyval) i :
  index_of tok l = Some i →
  l !! i = Some (VStr tok) ∧ VStr tok ∉ take i l.
Proof.
  revert i. induction l as [|x l IH]; intros i; simpl; [discriminate|].
  assert (Hrec : S <$> index_of tok l = Some i → x ≠ VStr tok →
            (x :: l) !! i = Some (VStr tok) ∧ VStr tok ∉ take i (x :: l)).
  { destruct (index_of tok l) as [j|]; simpl; [|discriminate].
    intros [= <-] Hx. destruct (IH j eq_refl) as [Hj Hbefore].
    simpl. split; [done|]. rewrite not_elem_of_cons. split; congruence. }
  destruct x as [|b|n|s]; try (intros H; by apply Hrec).
  destruct (String.eqb s tok) eqn:Hs.
  - apply String.eqb_eq in Hs as ->. intros [= <-]. simpl.
    split; [done | apply not_elem_of_nil].
  - apply String.eqb_neq in Hs. intros H. apply Hrec; congruence.
Qed.

Lemma index_of_app_fresh tok (l : list pyval) v :
  VStr tok ∉ l → index_of tok (l ++ [VStr tok; v]) = Some (length l).
Proof.
  induction l as [|x l IH]; simpl.
  - intros _. by rewrite String.eqb_refl.
  - rewrite not_elem_of_cons. intros [Hx Hl].
    destruct x as [|b|n|s]; try (by rewrite (IH Hl)).
    destruct (String.eqb s tok) eqn:Hs.
    + apply String.eqb_eq in Hs. congruence.
    + by rewrite (IH Hl).
Qed.

(** X11. On a list without [-vf], [_extend_vf] appends the flag and the
    filter; a second call then joins its filter to the first with a comma
    under the same single flag, so two calls leave
    [optlist + ['-vf', 'a,b']]. *)
Theorem extend_vf_joins_filters (optlist : list pyval) (a b : pyval) :
  VStr "-vf" ∉ optlist →
  VideoCodec._extend_vf optlist a = Ok (optlist ++ [VStr "-vf"; a])
  ∧ (let* l := VideoCodec._extend_vf optlist a in VideoCodec._extend_vf l b)
    = Ok (optlist ++ [VStr "-vf"; VStr (py_str a +:+ "," +:+ py_str b)]).
Proof.
  intros Hfresh.
  assert (H1 : VideoCodec._extend_vf optlist a
               = Ok (optlist ++ [VStr "-vf"; a])).
  { unfold VideoCodec._extend_vf.
    by rewrite (proj2 (index_of_None _ _) Hfresh). }
  split; [exact H1|]. rewrite H1. simpl.
  unfold VideoCodec._extend_vf. rewrite index_of_app_fresh by done.
  rewrite lookup_app_r by lia.
  replace (S (length optlist) - length optlist)%nat with 1%nat by lia.
  simpl. f_equal.
  replace (S (length optlist)) with (length optlist + 1)%nat by lia.
  by rewrite insert_app_r.
Qed.

Lemma extend_vf_joins_filters_witness :
  (let* l := VideoCodec._extend_vf [VStr "-vcodec"; VStr "libx264"]
               (VStr "crop=640:480:0:0") in
   VideoCodec._extend_vf l (VStr "transpose=1"))
  = Ok ([VStr "-vcodec"; VStr "libx264"]
        ++ [VStr "-vf"; VStr ("crop=640:480:0:0" +:+ "," +:+ "transpose=1")]).
Proof.
  apply (extend_vf_joins_filters [VStr "-vcodec"; VStr "libx264"]
           (VStr "crop=640:480:0:0") (VStr "transpose=1")).
  rewrite !not_elem_of_cons. repeat split; try discriminate.
  apply not_elem_of_nil.
Defined.

(** X12. On a list whose first [-vf] is at index [i], [_extend_vf]
    rewrites the element after it to [current,value] and leaves the length
    and every other element as they were; when that [-vf] is the last
    element, the call is an [IndexError]. *)
Theorem extend_vf_in_place (optlist : list pyval) (value : pyval) (i : nat) :
  index_of "-vf" optlist = Some i →
  match optlist !! S i with
  | Some current =>
    ∃ l, VideoCodec._extend_vf optlist value = Ok l
         ∧ length l = length optlist
         ∧ l !! S i = Some (VStr (py_str current +:+ "," +:+ py_str value))
         ∧ ∀ j, j ≠ S i → l !! j = optlist !! j
  | None => VideoCodec._extend_vf optlist value = Err IndexError
  end.
Proof.
  intros Hi. unfold VideoCodec._extend_vf. rewrite Hi.
  destruct (optlist !! S i) as [current|] eqn:Hcur; [|reflexivity].
  eexists. split; [reflexivity|]. split; [apply length_insert|]. split.
  - apply list_lookup_insert_eq. by apply lookup_lt_Some in Hcur.
  - intros j Hj. by apply list_lookup_insert_ne.
Qed.

Lemma extend_vf_in_place_witness :
  VideoCodec._extend_vf [VStr "-s"; VStr "640x480"; VStr "-vf"]
    (VStr "transpose=1")
  = Err IndexError.
Proof.
  apply (extend_vf_in_place [VStr "-s"; VStr "640x480"; VStr "-vf"]
           (VStr "transpose=1") 2).
  reflexivity.
Defined.

(** ** Video codecs, continued *)

(** X13. [_div_by_2], called with one number, returns the least even
    number that is not below it; called with [None] it is a
    [TypeError]. *)
Theorem div_by_2_least_even (d : Z) :
  (∃ d', VideoCodec._div_by_2 [ADim (Some d)] = Ok (Some d')
         ∧ d' mod 2 = 0 ∧ d ≤ d'
         ∧ ∀ e, e mod 2 = 0 → d ≤ e → d' ≤ e)
  ∧ VideoCodec._div_by_2 [ADim None] = Err TypeError.
Proof.
  split; [|reflexivity]. simpl.
  destruct (d mod 2 =? 0) eqn:Hd; eexists; split; try reflexivity.
  - repeat split; lia.
  - assert (d mod 2 = 1) by (pose proof (Z.mod_pos_bound d 2); lia).
    repeat split; try lia.
    + rewrite Z.add_mod by lia. replace (d mod 2) with 1 by lia.
      reflexivity.
    + intros e He Hle. destruct (decide (e = d)) as [->|]; lia.
Qed.

(** X14. No call of [VideoCodec.parse_options] returns a fragment, for
    any of the eight video classes and any dictionary: with a [codec] that
    is not the name of the class it is the [ValueError] of the name check,
    and otherwise it ends in an exception no later than the call
    [self._div_by_2(w)]. *)
Theorem video_parse_options_never_returns
    (self : video_codec) (opt : gmap string pyval) :
  is_ok (VideoCodec.parse_options self opt) = false
  ∧ (opt !! "codec" ≠ Some (VStr (VideoCodec.codec_name self)) →
     VideoCodec.parse_options self opt
     = Err (ValueError "invalid codec name"))
  ∧ (opt !! "codec" = Some (VStr (VideoCodec.codec_name self)) →
     ∀ w h f,
       VideoCodec._aspect_corrections
         (get_int (BaseCodec.safe_options (VideoCodec.encoder_options self)
                     opt) "src_width")
         (get_int (BaseCodec.safe_options (VideoCodec.encoder_options self)
                     opt) "src_height")
         (VideoCodec.bound_dim
            (BaseCodec.safe_options (VideoCodec.encoder_options self) opt)
            "max_width" 16 4000)
         (VideoCodec.bound_dim
            (BaseCodec.safe_options (VideoCodec.encoder_options self) opt)
            "max_height" 16 3000)
         (match BaseCodec.safe_options (VideoCodec.encoder_options self) opt
                !! "sizing_policy" with
          | Some (VStr p) => if is_policy p then p else "Keep"
          | _ => "Keep"
          end)
       = Ok (w, h, f) →
       VideoCodec.parse_options self opt = Err TypeError).
Proof.
  destruct (base_parse_options_spec (VideoCodec.codec_name self) opt)
    as [Hyes Hno].
  split; [|split].
  - destruct (video_parse_options_raises self opt) as [e ->]. reflexivity.
  - intros H. unfold VideoCodec.parse_options. by rewrite (Hno H).
  - intros H w h f Hgeo. unfold VideoCodec.parse_options.
    rewrite (Hyes H). simpl.
    set (safe := BaseCodec.safe_options (VideoCodec.encoder_options self) opt)
      in *.
    assert (Hfps : ∀ k, k ≠ "fps" → k ≠ "bitrate" →
              del_outside "bitrate" 16 15000 (del_outside "fps" 1 120 safe)
                !! k = safe !! k).
    { intros k ? ?. by rewrite !lookup_del_outside_ne. }
    unfold VideoCodec.bound_dim, get_int in *.
    rewrite !Hfps by done. by rewrite Hgeo.
Qed.

Lemma video_parse_options_never_returns_witness :
  VideoCodec.parse_options Vp8Codec {[ "codec" := VStr "h264" ]}
  = Err (ValueError "invalid codec name")
  ∧ VideoCodec.parse_options Vp8Codec
      {[ "codec" := VStr "vp8"; "src_width" := VInt 640;
         "src_height" := VInt 480 ]}
    = Err TypeError.
Proof.
  destruct (video_parse_options_never_returns Vp8Codec
              {[ "codec" := VStr "h264" ]}) as (_ & Hno & _).
  destruct (video_parse_options_never_returns Vp8Codec
              {[ "codec" := VStr "vp8"; "src_width" := VInt 640;
                 "src_height" := VInt 480 ]}) as (_ & _ & Hyes).
  split.
  - apply Hno. vm_compute. discriminate.
  - apply (Hyes eq_refl (Some 640) (Some 480) None). vm_compute. reflexivity.
Defined.

(** X15. The bound that [parse_options] hands to the resolver for
    [max_width] (and, with 3000, for [max_height]), for an even upper end
    of the range: there is none when the key is not in the sanitized
    dictionary and none when its value lies outside the range; for a
    value inside the range the bound is that value when it is even and the
    value plus one when it is odd, so it is even and within the range. *)
Theorem requested_bound_even_in_range
    (safe : gmap string pyval) (k : string) (lo hi : Z) :
  hi mod 2 = 0 →
  match get_int safe k with
  | None => VideoCodec.bound_dim safe k lo hi = None
  | Some x =>
    (x < lo ∨ hi < x → VideoCodec.bound_dim safe k lo hi = None)
    ∧ (lo ≤ x ≤ hi →
       ∃ w, VideoCodec.bound_dim safe k lo hi = Some w
            ∧ w = (if x mod 2 =? 0 then x else x + 1)
            ∧ w mod 2 = 0 ∧ lo ≤ w ≤ hi)
  end.
Proof.
  intros Hhi. unfold VideoCodec.bound_dim.
  destruct (get_int safe k) as [x|]; [|reflexivity].
  split.
  - intros Hout. replace ((x <? lo) || (x >? hi)) with true by lia.
    reflexivity.
  - intros Hin. replace ((x <? lo) || (x >? hi)) with false by lia.
    destruct (x mod 2 =? 0) eqn:Hx; eexists; split; try reflexivity.
    + split; [reflexivity|]. split; lia.
    + assert (x mod 2 = 1) by (pose proof (Z.mod_pos_bound x 2); lia).
      assert ((x + 1) mod 2 = 0).
      { rewrite Z.add_mod by lia. replace (x mod 2) with 1 by lia.
        reflexivity. }
      split; [reflexivity|]. split; [done|].
      assert (x ≠ hi) by (intros ->; lia). lia.
Qed.

Lemma requested_bound_even_in_range_witness :
  VideoCodec.bound_dim {[ "max_width" := VInt 15 ]} "max_width" 16 4000
  = None
  ∧ ∃ w, VideoCodec.bound_dim {[ "max_width" := VInt 641 ]} "max_width"
           16 4000 = Some w
         ∧ w = 642 ∧ w mod 2 = 0 ∧ 16 ≤ w ≤ 4000.
Proof.
  pose proof (requested_bound_even_in_range
                {[ "max_width" := VInt 15 ]} "max_width" 16 4000 eq_refl)
    as H15.
  pose proof (requested_bound_even_in_range
                {[ "max_width" := VInt 641 ]} "max_width" 16 4000 eq_refl)
    as H641.
  assert (Hg15 : get_int {[ "max_width" := VInt 15 ]} "max_width" = Some 15)
    by reflexivity.
  assert (Hg641 : get_int {[ "max_width" := VInt 641 ]} "max_width"
                  = Some 641) by reflexivity.
  rewrite Hg15 in H15. rewrite Hg641 in H641.
  destruct H15 as [Hout _]. destruct H641 as [_ Hin].
  split; [apply Hout; lia|].
  destruct Hin as (w & Hw & Heq & Heven & Hrange); [lia|].
  exists w. split; [exact Hw|]. split; [rewrite Heq; reflexivity|].
  split; [exact Heven | exact Hrange].
Defined.

(** ** The registries, continued *)

Lemma registry_snoc {C : Type} (name : C → option string) (l : list C) c :
  registry name (l ++ [c]) = <[name c := c]> (registry name l).
Proof.
  unfold registry. generalize (∅ : gmap (option string) C).
  induction l as [|x l IH]; intros m; simpl; [reflexivity | apply IH].
Qed.

(** X16. A registry built by the loops of [__init__] returns, for a name,
    the last class of the list that carries the name (a later class hides
    an earlier one of the same name), and no class for a name that no
    class carries. In the three codec lists no class is hidden: each one
    is found under its own [codec_name]. *)
Theorem registry_last_class_wins :
  (∀ (C : Type) (name : C → option string) (l : list C) (k : option string),
     registry name l !! k = last (filter (λ cls, name cls = k) l))
  ∧ Forall (λ cls, Converter.audio_codecs !! audio_class_name cls = Some cls)
      audio_codec_list
  ∧ Forall (λ cls, Converter.video_codecs !! video_class_name cls = Some cls)
      video_codec_list
  ∧ Forall (λ cls, Converter.subtitle_codecs !! subtitle_class_name cls
                   = Some cls)
      subtitle_codec_list.
Proof.
  split; [|split; [|split]].
  - intros C name l k. induction l as [|c l IH] using rev_ind.
    + reflexivity.
    + rewrite registry_snoc, filter_app, filter_singleton, lookup_insert.
      repeat case_decide; try done.
      * by rewrite last_snoc.
      * by rewrite app_nil_r.
      * exact [].
  - repeat constructor.
  - repeat constructor.
  - repeat constructor.
Qed.

(** ** The facade, continued *)

Section FacadeProperties.

Variable format_list : list Format.
Variable parse_time : topval → result pyval.

Abbreviation formats' := (Converter.formats format_list).
Abbreviation build := (Converter.parse_options format_list parse_time).

(** X17. The facade accepts no request that names one of the eight video
    codec classes: when a request is accepted, it has no [video] section,
    or the codec of that section is [None] or ['copy']. *)
Theorem accepted_video_is_null_or_copy
    (d : gmap string topval) (twopass : pyval) (l : list pyval) :
  build (Request d) twopass = Ok l →
  d !! "video" = None
  ∨ ∃ v, d !! "video" = Some (Dict v)
         ∧ (v !! "codec" = Some VNone ∨ v !! "codec" = Some (VStr "copy")).
Proof.
  intros H. unfold Converter.parse_options in H.
  destruct (d !! "format") as [[f|fd]|] eqn:Hf; try discriminate.
  destruct (registry_get formats' f) as [cls|] eqn:Hreg; [|discriminate].
  inv_bind H.
  destruct (bool_decide (d !! "audio" = None)
            && bool_decide (d !! "video" = None)); [discriminate|].
  do 2 inv_bind H. inv_bind H. rename a2 into section, E2 into Hsection.
  inv_bind H. rename E2 into Hvideo. clear H.
  unfold Converter.stream_section in Hsection.
  destruct (d !! "video") as [[x|v]|] eqn:Hv; simpl in Hsection;
    [discriminate | | by left].
  right. exists v. split; [done|].
  destruct (v !! "codec") as [c|] eqn:Hc; [|discriminate].
  injection Hsection as <-.
  unfold Converter.stream_options in Hvideo. rewrite Hc in Hvideo.
  destruct (registry_get Converter.video_codecs c) as [vcls|] eqn:Hcls;
    [|discriminate].
  destruct vcls as [| |vc].
  - destruct c as [|b|n|s]; simpl in Hcls; try discriminate; [by left|].
    apply registry_name in Hcls. simpl in Hcls. discriminate Hcls.
  - destruct c as [|b|n|s]; simpl in Hcls; try discriminate.
    apply registry_name in Hcls. simpl in Hcls.
    injection Hcls as <-. by right.
  - simpl in Hvideo.
    destruct (video_parse_options_raises vc v) as [e He]. congruence.
Qed.

(** X19. In the first pass the audio section is not read at all: two
    requests that differ only in the value under [audio] get the same
    result, be it a list or an exception. *)
Theorem first_pass_ignores_audio_section
    (d : gmap string topval) (x y : topval) :
  build (Request (<["audio" := x]> d)) (VInt 1)
  = build (Request (<["audio" := y]> d)) (VInt 1).
Proof.
  unfold Converter.parse_options, Converter.stream_section,
    BaseFormat.parse_options.
  rewrite !lookup_insert_eq. rewrite !lookup_insert_ne by done.
  reflexivity.
Qed.

(** X18. Without two-pass mode ([twopass] equal to neither 1 nor 2) a
    request is accepted exactly when its second pass is, and the list of
    the second pass is the single-pass list followed by [-pass 2]. *)
Theorem single_pass_is_second_pass_without_flag
    (d : gmap string topval) (twopass : pyval) (l : list pyval) :
  py_eq_int twopass 1 = false → py_eq_int twopass 2 = false →
  build (Request d) twopass = Ok l
  ↔ build (Request d) (VInt 2) = Ok (l ++ [VStr "-pass"; VStr "2"]).
Proof.
  intros H1 H2. unfold Converter.parse_options. rewrite H1, H2.
  change (py_eq_int (VInt 2) 1) with false.
  change (py_eq_int (VInt 2) 2) with true.
  destruct (d !! "format") as [[f|fd]|]; try (split; discriminate).
  destruct (registry_get formats' f) as [cls|]; [|split; discriminate].
  destruct (BaseFormat.parse_options cls d) as [fo|]; simpl;
    [|split; discriminate].
  destruct (bool_decide (d !! "audio" = None)
            && bool_decide (d !! "video" = None)); [split; discriminate|].
  repeat match goal with
  | |- context [rbind ?r _] =>
    destruct r; simpl; [|split; discriminate]
  end.
  split.
  - by intros [= ->].
  - intros [= H]. apply app_inv_tail in H. by subst.
Qed.


End FacadeProperties.

Lemma accepted_video_is_null_or_copy_witness :
  ({[ "format" := Scalar (VStr "ogg");
      "video" := Dict {[ "codec" := VStr "copy" ]} ]}
     : gmap string topval) !! "video" = None
  ∨ ∃ v, ({[ "format" := Scalar (VStr "ogg");
             "video" := Dict {[ "codec" := VStr "copy" ]} ]}
            : gmap string topval) !! "video" = Some (Dict v)
         ∧ (v !! "codec" = Some VNone ∨ v !! "codec" = Some (VStr "copy")).
Proof.
  apply (accepted_video_is_null_or_copy ogg_only no_time _ VNone
           [VStr "-an"; VStr "-vcodec"; VStr "copy"; VStr "-sn"; VStr "-f";
            VStr "ogg"]).
  reflexivity.
Defined.

Lemma single_pass_is_second_pass_without_flag_witness :
  Converter.parse_options ogg_only no_time
    (Request {[ "format" := Scalar (VStr "ogg");
                "audio" := Dict {[ "codec" := VStr "vorbis" ]} ]}) (VInt 2)
  = Ok ([VStr "-acodec"; VStr "libvorbis"; VStr "-vn"; VStr "-sn"; VStr "-f";
         VStr "ogg"] ++ [VStr "-pass"; VStr "2"]).
Proof.
  apply (proj1 (single_pass_is_second_pass_without_flag ogg_only no_time
           {[ "format" := Scalar (VStr "ogg");
              "audio" := Dict {[ "codec" := VStr "vorbis" ]} ]} VNone
           [VStr "-acodec"; VStr "libvorbis"; VStr "-vn"; VStr "-sn";
            VStr "-f"; VStr "ogg"] eq_refl eq_refl)).
  vm_compute. reflexivity.
Defined.


(** ** H.264 and Theora options *)

(** X22. The codec-specific tokens of the video classes on a sanitized
    dictionary. For [TheoraCodec] they are [-qscale:v] followed by the
    value of [quality], or nothing when there is no [quality]; for
    [H264Codec] they are strings, with [-crf] followed by the value of
    [quality] put between the tokens of [preset] and the rest when there
    is a [quality]; the other classes add nothing. The value of [quality]
    is in the list as the int that the dictionary holds. *)
Theorem video_specific_tokens
    (self : video_codec) (opt : gmap string pyval) :
  let safe := BaseCodec.safe_options (VideoCodec.encoder_options self) opt in
  let l := VideoCodec._codec_specific_produce_ffmpeg_list self safe in
  (self = H264Codec ∨ self = TheoraCodec →
   ∀ q, safe !! "quality" = Some q → ∃ n, q = VInt n)
  ∧ match self with
    | TheoraCodec =>
      l = match safe !! "quality" with
          | Some q => [VStr "-qscale:v"; q]
          | None => []
          end
    | H264Codec =>
      ∃ pre post,
        l = pre
            ++ match safe !! "quality" with
               | Some q => [VStr "-crf"; q]
               | None => []
               end
            ++ post
        ∧ pre = match safe !! "preset" with
                | Some v => [VStr "-preset"; v]
                | None => []
                end
        ∧ ∀ x, x ∈ pre ++ post → ∃ s, x = VStr s
    | _ => l = []
    end.
Proof.
  cbv zeta.
  assert (Hkind : self = H264Codec ∨ self = TheoraCodec →
            VideoCodec.encoder_options self !! "quality" = Some KInt)
    by (intros [-> | ->]; reflexivity).
  split.
  - intros Hself q Hq. apply (safe_int_key _ _ _ _ (Hkind Hself) Hq).
  - destruct self; try reflexivity.
    set (safe := BaseCodec.safe_options
                   (VideoCodec.encoder_options H264Codec) opt).
    assert (Hstr : ∀ flag k x, x ∈ emit_raw flag k safe →
              VideoCodec.encoder_options H264Codec !! k = Some KStr →
              ∃ s, x = VStr s).
    { intros flag k x Hx Hk. unfold emit_raw in Hx.
      destruct (safe !! k) as [v|] eqn:Hv; [|by apply elem_of_nil in Hx].
      destruct (safe_str_key _ _ _ _ Hk Hv) as [s ->].
      revert Hx. rewrite !elem_of_cons, elem_of_nil.
      intros [->|[->|[]]]; eauto. }
    exists (emit_raw "-preset" "preset" safe),
           (emit_raw "-profile" "profile" safe
            ++ emit_raw "-tune" "tune" safe
            ++ emit_raw "-level" "level" safe
            ++ emit_str "-refs" "max_reference_frames" safe
            ++ emit_str "-maxrate" "max_rate" safe
            ++ emit_str "-g" "max_frames_between_keyframes" safe).
    split; [reflexivity|]. split; [reflexivity|].
    intros x. rewrite !elem_of_app.
    intros [Hx|[Hx|[Hx|[Hx|[Hx|[Hx|Hx]]]]]].
    + by apply (Hstr _ _ _ Hx).
    + by apply (Hstr _ _ _ Hx).
    + by apply (Hstr _ _ _ Hx).
    + by apply (Hstr _ _ _ Hx).
    + by apply emit_str_strings in Hx.
    + by apply emit_str_strings in Hx.
    + by apply emit_str_strings in Hx.
Qed.

Lemma video_specific_tokens_witness :
  (∃ n, VInt 23 = VInt n)
  ∧ ∃ pre post,
      VideoCodec._codec_specific_produce_ffmpeg_list H264Codec
        (BaseCodec.safe_options (VideoCodec.encoder_options H264Codec)
           {[ "codec" := VStr "h264"; "quality" := VStr "23" ]})
      = pre ++ [VStr "-crf"; VInt 23] ++ post.
Proof.
  destruct (video_specific_tokens H264Codec
              {[ "codec" := VStr "h264"; "quality" := VStr "23" ]})
    as [Hint (pre & post & Hl & _ & _)].
  assert (Hq : BaseCodec.safe_options (VideoCodec.encoder_options H264Codec)
                 {[ "codec" := VStr "h264"; "quality" := VStr "23" ]}
               !! "quality" = Some (VInt 23)) by reflexivity.
  split.
  - apply Hint; [by left | exact Hq].
  - exists pre, post. rewrite Hq in Hl. exact Hl.
Defined.

(** ** [is_faststart] *)

Lemma str_app_assoc (a b c : string) : (a +:+ b) +:+ c = a +:+ b +:+ c.
Proof.
  induction a as [|x a IH]; [reflexivity|].
  change (String x ((a +:+ b) +:+ c) = String x (a +:+ b +:+ c)).
  by f_equal.
Qed.

Lemma str_length_app (a b : string) :
  String.length (a +:+ b) = (String.length a + String.length b)%nat.
Proof.
  induction a as [|x a IH]; [reflexivity|].
  change (S (String.length (a +:+ b))
          = S (String.length a + String.length b)).
  by f_equal.
Qed.

Lemma prefix_spec (pat s : string) :
  String.prefix pat s = true ↔ ∃ b, s = pat +:+ b.
Proof.
  revert s. induction pat as [|x pat IH]; intros s.
  - destruct s; simpl; split; eauto.
  - destruct s as [|y s]; simpl.
    + split; [discriminate | intros [b Hb]; discriminate].
    + destruct (ascii_dec x y) as [<-|Hne].
      * rewrite IH. split; intros [b Hb]; exists b.
        -- change (String x s = String x (pat +:+ b)). by f_equal.
        -- change (String x s = String x (pat +:+ b)) in Hb.
           by injection Hb.
      * split; [discriminate|]. intros [b Hb].
        change (String y s = String x (pat +:+ b)) in Hb.
        injection Hb as Hxy _. by destruct Hne.
Qed.

Lemma str_in_spec (pat s : string) :
  str_in pat s = true ↔ ∃ a b, s = a +:+ pat +:+ b.
Proof.
  induction s as [|c s IH].
  - change (str_in pat "") with (String.prefix pat "" || false).
    rewrite orb_true_iff, prefix_spec. split.
    + intros [[b Hb]|]; [|discriminate]. by exists "", b.
    + intros (a & b & Hab). left. destruct a; [|discriminate]. by exists b.
  - change (str_in pat (String c s))
      with (String.prefix pat (String c s) || str_in pat s).
    rewrite orb_true_iff, prefix_spec, IH. split.
    + intros [[b Hb]|(a & b & ->)]; [by exists "", b|].
      by exists (String c a), b.
    + intros (a & b & Hab). destruct a as [|c' a]; simpl in Hab.
      * left. by exists b.
      * right. injection Hab as -> ->. by exists a, b.
Qed.

Lemma substring_0_split (n : nat) (s : string) :
  ∃ r, s = String.substring 0 n s +:+ r
       ∧ (String.length (String.substring 0 n s) ≤ n)%nat.
Proof.
  revert s. induction n as [|n IH]; intros s.
  - exists s. destruct s; simpl; split; (reflexivity || lia).
  - destruct s as [|c s]; simpl.
    + exists "". split; [reflexivity | simpl; lia].
    + destruct (IH s) as (r & Hr & Hlen). exists r.
      split; [|simpl; lia].
      change (String c s = String c (String.substring 0 n s +:+ r)).
      by f_equal.
Qed.

Lemma substring_0_app (n : nat) (x y : string) :
  (String.length x ≤ n)%nat →
  String.substring 0 n (x +:+ y)
  = x +:+ String.substring 0 (n - String.length x) y.
Proof.
  revert n. induction x as [|c x IH]; intros n Hn; simpl in *.
  - by rewrite Nat.sub_0_r.
  - destruct n as [|n]; [lia|]. simpl. rewrite IH by lia. reflexivity.
Qed.

(** X23. [is_faststart] answers [True] exactly when the content of the
    file holds ['moov'] at an offset of at most 60, that is, wholly within
    the first 64 bytes; a ['moov'] that starts later, or straddles byte 64,
    is not seen. *)
Theorem is_faststart_first_64_bytes (content : string) :
  is_faststart content = true
  ↔ ∃ a b, content = a +:+ "moov" +:+ b ∧ (String.length a ≤ 60)%nat.
Proof.
  unfold is_faststart. rewrite str_in_spec. split.
  - intros (a & b & Hab).
    destruct (substring_0_split 64 content) as (r & Hr & Hlen).
    rewrite Hab in Hr, Hlen. exists a, (b +:+ r). split.
    + rewrite Hr. rewrite !str_app_assoc. reflexivity.
    + rewrite !str_length_app in Hlen. simpl in Hlen. lia.
  - intros (a & b & -> & Hlen).
    exists a, (String.substring 0 (64 - String.length a - 4) b).
    rewrite substring_0_app by lia. f_equal.
    by rewrite (substring_0_app _ "moov" b) by (simpl; lia).
Qed.

(** ** Stream sections through the registries *)

Lemma audio_accepts_codec_helper (self : audio_codec)
    (opt : gmap string pyval) :
  opt !! "codec" = Some (VStr (AudioCodec.codec_name self)) →
  ∃ frag, AudioCodec.parse_options self opt = Ok frag.
Proof.
  intros H. unfold AudioCodec.parse_options.
  rewrite (proj1 (base_parse_options_spec _ opt) H). simpl. eauto.
Qed.

Lemma subtitle_accepts_codec_helper (self : subtitle_codec)
    (opt : gmap string pyval) :
  BaseCodec.parse_options (SubtitleCodec.codec_name self) opt = Ok tt →
  SubtitleCodec.parse_options self opt
  = Ok [VStr "-scodec"; VStr (SubtitleCodec.ffmpeg_codec_name self)].
Proof.
  intros Hcodec. unfold SubtitleCodec.parse_options.
  rewrite Hcodec. simpl.
  rewrite !lookup_del_outside_ne by done.
  destruct (BaseCodec.safe_options SubtitleCodec.encoder_options opt
              !! "language") as [l|] eqn:Hl; [|reflexivity].
  apply safe_str_key in Hl as [s ->]; [|reflexivity].
  reflexivity.
Qed.

(** X24. A section whose [codec] is found in the audio registry is always
    accepted by the class found, whatever else the section holds, and the
    same for the subtitle registry: looked up by name, the name check of
    the class cannot fail, and no option value makes these classes
    raise. *)
Theorem registered_codec_is_accepted (section : gmap string pyval) (c : pyval) :
  section !! "codec" = Some c →
  (∀ cls, registry_get Converter.audio_codecs c = Some cls →
     ∃ frag, audio_parse_options cls section = Ok frag)
  ∧ (∀ cls, registry_get Converter.subtitle_codecs c = Some cls →
       ∃ frag, subtitle_parse_options cls section = Ok frag).
Proof.
  intros Hc. split; intros cls Hcls.
  - destruct cls as [| |ac]; simpl; eauto.
    destruct c as [|b|n|s]; simpl in Hcls; try discriminate Hcls.
    apply registry_name in Hcls. simpl in Hcls. injection Hcls as <-.
    destruct (audio_accepts_codec_helper ac section Hc) as [rest Hrest].
    eauto.
  - destruct cls as [| |sc]; simpl; eauto.
    destruct c as [|b|n|s]; simpl in Hcls; try discriminate Hcls.
    apply registry_name in Hcls. simpl in Hcls. injection Hcls as <-.
    exists [VStr "-scodec"; VStr (SubtitleCodec.ffmpeg_codec_name sc)].
    apply subtitle_accepts_codec_helper.
    by apply base_parse_options_spec.
Qed.

Lemma registered_codec_is_accepted_witness :
  ∃ frag, audio_parse_options (AudioClass FlacCodec)
            {[ "codec" := VStr "flac"; "bitrate" := VStr "loud" ]}
          = Ok frag.
Proof.
  apply (registered_codec_is_accepted
           {[ "codec" := VStr "flac"; "bitrate" := VStr "loud" ]}
           (VStr "flac")); reflexivity.
Defined.

Section FacadeErrors.

Variable format_list : list Format.
Variable parse_time : topval → result pyval.


End FacadeErrors.

